(** * my-studies-app: the gist resolver, the responsive shell and the route table

    A shallow embedding of the three pieces of logic of the application:

    - [GistInput] and [GistRoute]: the two versions of [GistComponent]
      (gist.component.ts), the one taking the identifier as an [@Input()]
      and the one subscribing to [route.params] with a [loading] flag;
    - [App]: [AppComponent] (app.component.ts), its [resizeSubject] piped
      through [debounceTime(200)] and its two layout flags;
    - [Routing]: the [routes] table of app-routing.module.ts.

    Time is discrete: the clock is an [N] and an [Elapse dt] event moves it
    forward, running the timer callbacks that fall due on the way. *)

From stdpp Require Import base strings gmap list.
From Stdlib Require Import ZArith NArith Ascii Lia.


(** ** DomSanitizer *)

Module Sanitizer.

(** [SafeResourceUrl] is a marker interface: the field holds either the
    plain string it was initialised with or the wrapper returned by
    [bypassSecurityTrustResourceUrl]. *)
Inductive SafeResourceUrl : Type :=
| PlainString (s : string)
| TrustedResourceUrl (changingThisBreaksApplicationSecurity : string).

Definition bypassSecurityTrustResourceUrl (value : string) : SafeResourceUrl :=
  TrustedResourceUrl value.

(** The string a locator carries, whatever its trust. *)
Definition underlying (u : SafeResourceUrl) : string :=
  match u with
  | PlainString s => s
  | TrustedResourceUrl s => s
  end.

Definition is_trusted (u : SafeResourceUrl) : bool :=
  match u with
  | PlainString _ => false
  | TrustedResourceUrl _ => true
  end.

End Sanitizer.

Import Sanitizer.

(** ** The browser's timer queue

    [setTimeout] callbacks of a component of type [C] are state
    transformers [C -> C]; the queue is kept ordered by deadline, first
    scheduled first among equal deadlines. *)

Module Host.
Section WithComponent.
Context {C : Type}.

Record t : Type := mk {
  now : N;
  timeouts : list (N * (C -> C))
}.

Fixpoint enqueue (deadline : N) (cb : C -> C) (q : list (N * (C -> C)))
  : list (N * (C -> C)) :=
  match q with
  | [] => [(deadline, cb)]
  | (d, k) :: q' =>
      if (d <=? deadline)%N then (d, k) :: enqueue deadline cb q'
      else (deadline, cb) :: (d, k) :: q'
  end.

Definition setTimeout (cb : C -> C) (delay : N) (h : t) : t :=
  {| now := now h; timeouts := enqueue (now h + delay)%N cb (timeouts h) |}.

(** Runs, in queue order, the callbacks due at or before [limit]. *)
Fixpoint fire (limit : N) (q : list (N * (C -> C))) (c : C)
  : list (N * (C -> C)) * C :=
  match q with
  | [] => ([], c)
  | (d, k) :: q' =>
      if (d <=? limit)%N then fire limit q' (k c) else (q, c)
  end.

Definition elapse (dt : N) (h : t) (c : C) : t * C :=
  let limit := (now h + dt)%N in
  let '(q, c') := fire limit (timeouts h) c in
  ({| now := limit; timeouts := q |}, c').

End WithComponent.
Arguments t : clear implicits.
End Host.

(** ** GistComponent *)

(** The template literal [`assets/html/gist_${id}.html`]. *)
Definition gist_asset (id : string) : string :=
  "assets/html/gist_" +:+ (id +:+ ".html").

(** *** The version with [@Input() gistId] *)

Module GistInput.

Record GistComponent : Type := {
  safeUrl : SafeResourceUrl;
  gistId : string
}.

(** Field initialisers; the constructor body is empty. *)
Definition constructor : GistComponent :=
  {| safeUrl := PlainString ""; gistId := "" |}.

Definition ngOnInit (this : GistComponent) : GistComponent :=
  {| safeUrl := bypassSecurityTrustResourceUrl (gist_asset (gistId this));
     gistId := gistId this |}.

(** The framework writes a bound input by assigning the property; the
    class has no setter and no [ngOnChanges]. *)
Definition set_gistId (v : string) (this : GistComponent) : GistComponent :=
  {| safeUrl := safeUrl this; gistId := v |}.

Inductive Event : Type :=
| InputChange (v : string)
| Elapse (dt : N).

Definition World : Type := (Host.t GistComponent * GistComponent)%type.

Definition boot (t0 : N) : World :=
  ({| Host.now := t0; Host.timeouts := [] |}, constructor).

(** [ngOnInit] registers nothing with the host. *)
Definition init (w : World) : World := (w.1, ngOnInit w.2).

Definition step (e : Event) (w : World) : World :=
  match e with
  | InputChange v => (w.1, set_gistId v w.2)
  | Elapse dt => Host.elapse dt w.1 w.2
  end.

Definition run (es : list Event) (w : World) : World :=
  foldl (fun w e => step e w) w es.

(** The value the input holds after a trace, [v] being the one before. *)
Definition last_input (v : string) (es : list Event) : string :=
  foldl (fun v e => match e with InputChange v' => v' | Elapse _ => v end) v es.

End GistInput.

(** *** The version subscribed to [route.params] *)

Module GistRoute.

(** [params['gistId']] is [undefined] when the key is absent. *)
Inductive JsValue : Type :=
| JsUndefined
| JsString (s : string).

Definition index (params : gmap string string) (key : string) : JsValue :=
  match params !! key with
  | Some s => JsString s
  | None => JsUndefined
  end.

(** String conversion inside a template literal. *)
Definition to_string (v : JsValue) : string :=
  match v with
  | JsUndefined => "undefined"
  | JsString s => s
  end.

Record GistComponent : Type := {
  safeUrl : SafeResourceUrl;
  gistId : JsValue;
  loading : bool
}.

(** [route.params.subscribe((params) => { this.gistId = params['gistId'] })] *)
Definition on_params (params : gmap string string) (this : GistComponent)
  : GistComponent :=
  {| safeUrl := safeUrl this;
     gistId := index params "gistId";
     loading := loading this |}.

(** Field initialisers, then the subscription, which delivers the current
    parameters of the route at once. *)
Definition constructor (params : gmap string string) : GistComponent :=
  on_params params
    {| safeUrl := PlainString ""; gistId := JsString ""; loading := true |}.

(** [() => { this.loading = false }] *)
Definition loading_done (this : GistComponent) : GistComponent :=
  {| safeUrl := safeUrl this; gistId := gistId this; loading := false |}.

Definition World : Type := (Host.t GistComponent * GistComponent)%type.

Definition ngOnInit (w : World) : World :=
  let this := w.2 in
  let this' :=
    {| safeUrl :=
         bypassSecurityTrustResourceUrl (gist_asset (to_string (gistId this)));
       gistId := gistId this;
       loading := loading this |} in
  (Host.setTimeout loading_done 1000 w.1, this').

Inductive Event : Type :=
| ParamsEmit (params : gmap string string)
| Elapse (dt : N).

Definition boot (t0 : N) (params : gmap string string) : World :=
  ({| Host.now := t0; Host.timeouts := [] |}, constructor params).

Definition step (e : Event) (w : World) : World :=
  match e with
  | ParamsEmit p => (w.1, on_params p w.2)
  | Elapse dt => Host.elapse dt w.1 w.2
  end.

Definition run (es : list Event) (w : World) : World :=
  foldl (fun w e => step e w) w es.

(** Total time of the [Elapse] events of a trace. *)
Definition elapsed (es : list Event) : N :=
  foldr (fun e acc => match e with Elapse dt => (dt + acc)%N | _ => acc end)
        0%N es.

(** The two phases after [ngOnInit] ran at time [t1]: the timer is
    pending and the flag is up, or the timer has fired and the flag is
    down. *)
Definition waiting (t1 : N) (w : World) : Prop :=
  Host.timeouts w.1 = [((t1 + 1000)%N, loading_done)]
  /\ loading w.2 = true
  /\ (Host.now w.1 < t1 + 1000)%N.

Definition expired (t1 : N) (w : World) : Prop :=
  Host.timeouts w.1 = []
  /\ loading w.2 = false
  /\ (t1 + 1000 <= Host.now w.1)%N.

(** The parameters last emitted in a trace, [p] being those before. *)
Definition last_params (p : gmap string string) (es : list Event)
  : gmap string string :=
  foldl (fun p e => match e with ParamsEmit p' => p' | Elapse _ => p end) p es.

End GistRoute.

(** ** AppComponent *)

Module App.

Inductive Error : Type :=
| ObjectUnsubscribedError.

(** The rxjs [Subject<number>]. The component attaches one observer at
    most, the subscriber of [debounceTime(200)]; [unsubscribe()] on a
    subject marks it closed and drops its observer list, nothing more:
    [next] and [subscribe] on a closed subject throw. *)
Record Subject : Type := {
  closed : bool;
  observed : bool
}.

Record AppComponent : Type := {
  sideNavOpened : bool;
  isSmallScreen : bool;
  resizeSubject : Subject
}.

(** The component in its window. [debounce] is the state of the
    [debounceTime] subscriber, which belongs to the subscription and not
    to the subject: the deadline of its scheduled task and the last value
    it received. [delivered] records every call of the subscriber passed
    to [subscribe], as (time, value). *)
Record World : Type := {
  now : N;
  innerWidth : Z;
  this : AppComponent;
  debounce : option (N * Z);
  delivered : list (N * Z)
}.

Definition dueTime : N := 200.

Definition constructor : AppComponent :=
  {| sideNavOpened := false;
     isSmallScreen := false;
     resizeSubject := {| closed := false; observed := false |} |}.

Definition boot (t0 : N) (width : Z) : World :=
  {| now := t0; innerWidth := width; this := constructor;
     debounce := None; delivered := [] |}.

Definition set_this (c : AppComponent) (w : World) : World :=
  {| now := now w; innerWidth := innerWidth w; this := c;
     debounce := debounce w; delivered := delivered w |}.

Definition set_isSmallScreen (b : bool) (c : AppComponent) : AppComponent :=
  {| sideNavOpened := sideNavOpened c; isSmallScreen := b;
     resizeSubject := resizeSubject c |}.

Definition set_sideNavOpened (b : bool) (c : AppComponent) : AppComponent :=
  {| sideNavOpened := b; isSmallScreen := isSmallScreen c;
     resizeSubject := resizeSubject c |}.

Definition set_resizeSubject (s : Subject) (c : AppComponent) : AppComponent :=
  {| sideNavOpened := sideNavOpened c; isSmallScreen := isSmallScreen c;
     resizeSubject := s |}.

(** A handler leaves the state it reached and the exception it threw, if
    any: assignments made before a [throw] stay. *)
Definition Outcome : Type := (World * option Error)%type.

(** [debounceTime]: a value received replaces the last one and moves the
    deadline to [dueTime] after its arrival. *)
Definition debounce_next (value : Z) (w : World) : World :=
  {| now := now w; innerWidth := innerWidth w; this := this w;
     debounce := Some ((now w + dueTime)%N, value);
     delivered := delivered w |}.

(** [Subject.next]. *)
Definition subject_next (value : Z) (w : World) : Outcome :=
  let s := resizeSubject (this w) in
  if closed s then (w, Some ObjectUnsubscribedError)
  else if observed s then (debounce_next value w, None)
  else (w, None).

(** [@HostListener('window:resize')] *)
Definition onWindowResize (w : World) : Outcome :=
  subject_next (innerWidth w) w.

(** The subscriber [(event) => { this.isSmallScreen = window.innerWidth < 800 }]. *)
Definition on_debounced (event : Z) (w : World) : World :=
  set_this (set_isSmallScreen (innerWidth w <? 800)%Z (this w)) w.

Definition ngOnInit (w : World) : Outcome :=
  let small := (innerWidth w <? 800)%Z in
  let c := set_sideNavOpened (negb small) (set_isSmallScreen small (this w)) in
  let s := resizeSubject c in
  if closed s then (set_this c w, Some ObjectUnsubscribedError)
  else
    (set_this (set_resizeSubject {| closed := false; observed := true |} c) w,
     None).

Definition ngOnDestroy (w : World) : World :=
  set_this
    (set_resizeSubject {| closed := true; observed := false |} (this w)) w.

(** Modelled from the spec: the template app.component.html, which binds
    the side navigation's [sidenav_closed] output, is not among the
    sources; the close-navigation signal sets [sideNavOpened] to
    [false]. *)
Definition on_sidenav_closed (w : World) : World :=
  set_this (set_sideNavOpened false (this w)) w.

(** The scheduled task of [debounceTime]: when its deadline is reached it
    hands the last value to the subscriber and clears itself. *)
Definition elapse (dt : N) (w : World) : World :=
  let limit := (now w + dt)%N in
  let w' :=
    match debounce w with
    | Some (deadline, value) =>
        if (deadline <=? limit)%N then
          on_debounced value
            {| now := deadline; innerWidth := innerWidth w; this := this w;
               debounce := None;
               delivered := delivered w ++ [(deadline, value)] |}
        else w
    | None => w
    end in
  {| now := limit; innerWidth := innerWidth w'; this := this w';
     debounce := debounce w'; delivered := delivered w' |}.

Inductive Event : Type :=
| ViewportChange (width : Z)
| WindowResize
| Elapse (dt : N)
| SidenavClosed
| Destroy.

Definition set_innerWidth (width : Z) (w : World) : World :=
  {| now := now w; innerWidth := width; this := this w;
     debounce := debounce w; delivered := delivered w |}.

Definition step (e : Event) (w : World) : World :=
  match e with
  | ViewportChange width => set_innerWidth width w
  | WindowResize => (onWindowResize w).1
  | Elapse dt => elapse dt w
  | SidenavClosed => on_sidenav_closed w
  | Destroy => ngOnDestroy w
  end.

Definition run (es : list Event) (w : World) : World :=
  foldl (fun w e => step e w) w es.

(** The component just after creation in a window of the given width. *)
Definition start (t0 : N) (width : Z) : World :=
  (ngOnInit (boot t0 width)).1.

(** One resize input: after [gap] time units the viewport takes the width
    [width] and the resize event is dispatched. *)
Definition resize_input (i : N * Z) : list Event :=
  [Elapse i.1; ViewportChange i.2; WindowResize].

(** A burst of inputs followed by a quiet period. *)
Definition burst (inputs : list (N * Z)) (quiet : N) : list Event :=
  concat (map resize_input inputs) ++ [Elapse quiet].

(** Several bursts in a row, each with its quiet period. *)
Definition bursts (bs : list (list (N * Z) * N)) : list Event :=
  concat (map (fun b => burst b.1 b.2) bs).

(** The time of the last input of a burst that starts at time [t]. *)
Definition arrival (t : N) (inputs : list (N * Z)) : N :=
  foldl (fun t i => (t + i.1)%N) t inputs.

(** The width carried by the last input. *)
Definition last_width (inputs : list (N * Z)) : Z :=
  List.last (map snd inputs) 0%Z.

(** A burst proper: at least one input, and every input after the first
    arrives less than [dueTime] after the one before. *)
Definition dense (inputs : list (N * Z)) : bool :=
  match inputs with
  | [] => false
  | _ :: rest => forallb (fun i => (i.1 <? dueTime)%N) rest
  end.

(** A burst that is left the time to settle. *)
Definition settled (b : list (N * Z) * N) : bool :=
  dense b.1 && (dueTime <=? b.2)%N.

(** The debouncer as the spec words it, on a whole sequence of inputs: an
    input is passed on when no other input follows it within [dueTime], at
    [dueTime] after its arrival. [t] is the time of the input before, [held]
    its width if there was one, [quiet] the time that follows the last
    input. *)
Fixpoint debounced (t : N) (held : option Z) (inputs : list (N * Z)) (quiet : N)
  : list (N * Z) :=
  let passed (wait : N) :=
    match held with
    | Some v => if (dueTime <=? wait)%N then [((t + dueTime)%N, v)] else []
    | None => []
    end in
  match inputs with
  | [] => passed quiet
  | i :: rest => passed i.1 ++ debounced (t + i.1)%N (Some i.2) rest quiet
  end.

(** The subject is open and the debounced subscription is attached. *)
Definition listening (w : World) : bool :=
  negb (closed (resizeSubject (this w))) && observed (resizeSubject (this w)).

(** Total time of the [Elapse] events of a trace. *)
Definition elapsed (es : list Event) : N :=
  foldr (fun e acc => match e with Elapse dt => (dt + acc)%N | _ => acc end)
        0%N es.

(** The time of the last call recorded in a log, 0 for an empty log. *)
Definition last_time (log : list (N * Z)) : N :=
  List.last (map fst log) 0%N.

(** Every call recorded in the log comes [dueTime] or more after the one
    before. *)
Fixpoint spaced (log : list (N * Z)) : bool :=
  match log with
  | [] => true
  | a :: rest =>
      match rest with
      | [] => true
      | b :: _ => (a.1 + dueTime <=? b.1)%N && spaced rest
      end
  end.

(** What every step keeps: the log is spaced, its last call is not in the
    future, and a pending deadline lies [dueTime] or more after it. *)
Definition paced (w : World) : Prop :=
  spaced (delivered w) = true
  /\ (last_time (delivered w) <= now w)%N
  /\ match debounce w with
     | Some (d, _) => (last_time (delivered w) + dueTime <= d)%N
     | None => True
     end.

(** A pending deadline lies after the clock. *)
Definition ahead (w : World) : Prop :=
  match debounce w with
  | Some (d, _) => (now w < d)%N
  | None => True
  end.

Definition is_close (e : Event) : bool :=
  match e with SidenavClosed => true | _ => false end.

End App.

(** ** Percent-decoding of a URL segment

    The router's URL parser builds each segment of the URL tree from the
    text between two slashes passed through [decodeURIComponent]. Strings
    are sequences of UTF-8 octets; a decoded escape sequence must be one
    well-formed UTF-8 encoding, otherwise the function throws [URIError]
    ([None] here). *)

Module Uri.

Definition hex_digit (c : ascii) : option N :=
  let n := N_of_ascii c in
  if ((48 <=? n) && (n <=? 57))%N then Some (n - 48)%N
  else if ((65 <=? n) && (n <=? 70))%N then Some (n - 55)%N
  else if ((97 <=? n) && (n <=? 102))%N then Some (n - 87)%N
  else None.

(** Reads one escape [%XX] at the head of [s]. *)
Definition escape (s : string) : option (N * string) :=
  match s with
  | String "%" (String h (String l rest)) =>
      match hex_digit h, hex_digit l with
      | Some a, Some b => Some ((16 * a + b)%N, rest)
      | _, _ => None
      end
  | _ => None
  end.

(** Reads [k] further escapes, each a continuation octet [10xxxxxx]. *)
Fixpoint continuation (k : nat) (s : string) : option (list N * string) :=
  match k with
  | O => Some ([], s)
  | S k' =>
      match escape s with
      | Some (b, rest) =>
          if ((128 <=? b) && (b <=? 191))%N then
            match continuation k' rest with
            | Some (bs, r) => Some (b :: bs, r)
            | None => None
            end
          else None
      | None => None
      end
  end.

(** Number of continuation octets announced by a leading octet. *)
Definition trailing (b : N) : option nat :=
  if (b <? 128)%N then Some 0%nat
  else if (b <? 192)%N then None
  else if (b <? 224)%N then Some 1%nat
  else if (b <? 240)%N then Some 2%nat
  else if (b <? 248)%N then Some 3%nat
  else None.

(** No overlong form, no surrogate, nothing above U+10FFFF. *)
Definition well_formed (b : N) (bs : list N) : bool :=
  match bs with
  | [] => (b <? 128)%N
  | b1 :: _ =>
      if (b <? 194)%N then false
      else if (b =? 224)%N then (160 <=? b1)%N
      else if (b =? 237)%N then (b1 <=? 159)%N
      else if (b =? 240)%N then (144 <=? b1)%N
      else if (b =? 244)%N then (b1 <=? 143)%N
      else (b <? 244)%N
  end.

Definition octets (bs : list N) : string :=
  foldr (fun b acc => String (ascii_of_N b) acc) "" bs.

Fixpoint decode (fuel : nat) (s : string) : option string :=
  match s with
  | "" => Some ""
  | String c rest =>
      match fuel with
      | O => None
      | S fuel' =>
          if Ascii.eqb c "%" then
            match escape s with
            | None => None
            | Some (b, r1) =>
                match trailing b with
                | None => None
                | Some k =>
                    match continuation k r1 with
                    | None => None
                    | Some (bs, r2) =>
                        if well_formed b bs then
                          match decode fuel' r2 with
                          | Some t => Some (octets (b :: bs) +:+ t)
                          | None => None
                          end
                        else None
                    end
                end
            end
          else
            match decode fuel' rest with
            | Some t => Some (String c t)
            | None => None
            end
      end
  end.

Definition decodeURIComponent (s : string) : option string :=
  decode (String.length s) s.

Fixpoint contains (c : ascii) (s : string) : bool :=
  match s with
  | "" => false
  | String a rest => Ascii.eqb a c || contains c rest
  end.

Fixpoint split_at (sep : ascii) (cur : string) (s : string) : list string :=
  match s with
  | "" => [cur]
  | String a rest =>
      if Ascii.eqb a sep then cur :: split_at sep "" rest
      else split_at sep (cur +:+ String a "") rest
  end.

(** The parts of a path between slashes; the empty path has no part. *)
Definition split (sep : ascii) (s : string) : list string :=
  match s with
  | "" => []
  | _ => split_at sep "" s
  end.

End Uri.

(** ** The route table *)

Module Routing.

Inductive Component : Type :=
| WelcomeComponent
| GistComponent.

Inductive PathMatch : Type :=
| prefix
| full.

Record Route : Type := {
  path : string;
  pathMatch : PathMatch;
  component : option Component;
  redirectTo : option string
}.

(** [pathMatch] defaults to ['prefix']. *)
Definition routes : list Route :=
  [ {| path := ""; pathMatch := full;
       component := Some WelcomeComponent; redirectTo := None |};
    {| path := ":gistId"; pathMatch := prefix;
       component := Some GistComponent; redirectTo := None |};
    {| path := "**"; pathMatch := full;
       component := None; redirectTo := Some "" |} ].

(** The default matcher: the parts of the route's path against the first
    segments of the URL, a part [:name] taking any one segment. *)
Fixpoint match_parts (parts segments : list string) (params : gmap string string)
  : option (list string * gmap string string) :=
  match parts, segments with
  | [], _ => Some (segments, params)
  | _ :: _, [] => None
  | p :: parts', s :: segments' =>
      match p with
      | String ":" name => match_parts parts' segments' (<[name := s]> params)
      | _ => if String.eqb p s then match_parts parts' segments' params else None
      end
  end.

(** What is left of the URL after a route matched, and the parameters. *)
Definition match_route (r : Route) (segments : list string)
  : option (list string * gmap string string) :=
  if String.eqb (path r) "**" then Some ([], ∅)
  else if String.eqb (path r) "" then
    match pathMatch r, segments with
    | full, _ :: _ => None
    | _, _ => Some (segments, ∅)
    end
  else
    match match_parts (Uri.split "/" (path r)) segments ∅ with
    | Some (remaining, params) =>
        match pathMatch r, remaining with
        | full, _ :: _ => None
        | _, _ => Some (remaining, params)
        end
    | None => None
    end.

Inductive Recognized : Type :=
| Activated (c : Component) (params : gmap string string)
| NoMatch
| TooManyRedirects.

Definition MAX_ALLOWED_REDIRECTS : nat := 31.

(** The routes are tried in order. A route with a component and no
    children matches only when it leaves nothing of the URL; a redirect
    replaces the matched part and the recognition starts again. *)
Fixpoint recognize (redirects : nat) (config : list Route) (segments : list string)
  : Recognized :=
  let fix try (rs : list Route) : Recognized :=
    match rs with
    | [] => NoMatch
    | r :: rs' =>
        match match_route r segments with
        | None => try rs'
        | Some (remaining, params) =>
            match redirectTo r with
            | Some target =>
                match redirects with
                | O => TooManyRedirects
                | S n => recognize n config (Uri.split "/" target ++ remaining)
                end
            | None =>
                match component r, remaining with
                | Some c, [] => Activated c params
                | _, _ => try rs'
                end
            end
        end
    end in
  try config.

(** The characters that end the text of a path segment in the URL parser:
    the slash, the parentheses of outlets, the question mark of the query,
    the semicolon of matrix parameters and the hash of the fragment. *)
Definition reserved (c : ascii) : bool := Uri.contains c "/()?;#".

Fixpoint plain (s : string) : bool :=
  match s with
  | "" => true
  | String c rest => negb (reserved c) && plain rest
  end.

(** The URLs embedded here are those made of plain path segments: an
    optional leading slash, then segments separated by single slashes, each
    non-empty and free of reserved characters. On such a URL the parser
    yields the text of each segment, in order, and nothing else. [None]:
    the URL is not of this class (it has matrix parameters, outlets, a
    query, a fragment or an empty segment) and nothing is said of it. *)
Definition parse (url : string) : option (list string) :=
  let path := match url with String "/" rest => rest | _ => url end in
  let raw := Uri.split "/" path in
  if forallb (fun s => negb (String.eqb s "") && plain s) raw
  then Some raw else None.

(** The segments of the URL tree are the decoded texts. When a text does
    not decode, parsing throws and [Router.parseUrl] takes the tree of the
    URL [/] in its place, which has no segment. *)
Definition url_tree (raw : list string) : list string :=
  match mapM Uri.decodeURIComponent raw with
  | Some segments => segments
  | None => []
  end.

(** Navigation to a URL of plain path segments; [None] exactly when
    [parse] gives [None]. *)
Definition navigate (url : string) : option Recognized :=
  match parse url with
  | Some raw => Some (recognize MAX_ALLOWED_REDIRECTS routes (url_tree raw))
  | None => None
  end.


(** The router creates the component of the activated route and hands it
    the parameters; for the [GistComponent] that subscribes to
    [route.params] the locator is the one [ngOnInit] resolves from them. *)
Definition routed_locator (t0 : N) (r : Recognized) : option SafeResourceUrl :=
  match r with
  | Activated GistComponent params =>
      Some (GistRoute.safeUrl (GistRoute.ngOnInit (GistRoute.boot t0 params)).2)
  | _ => None
  end.

End Routing.

(** ** [btoa] and [encodeURIComponent]

    The two browser functions [AppComponent.decodeURL] calls. Strings are
    sequences of UTF-8 octets, as in [Uri]. *)

Module Encoding.

(** The code units of a string all of whose characters are below U+0100:
    an octet below 128 is its own code unit, the pairs [C2 xx] and [C3 xx]
    are the code units 128 to 255. Any other character makes [btoa] throw
    [InvalidCharacterError] ([None] here). *)
Fixpoint latin1 (s : string) : option (list N) :=
  match s with
  | "" => Some []
  | String c rest =>
      let b := N_of_ascii c in
      if (b <? 128)%N then
        match latin1 rest with Some l => Some (b :: l) | None => None end
      else
        match rest with
        | "" => None
        | String c' rest' =>
            let b' := N_of_ascii c' in
            if ((128 <=? b') && (b' <=? 191))%N then
              if (b =? 194)%N then
                match latin1 rest' with Some l => Some (b' :: l) | None => None end
              else if (b =? 195)%N then
                match latin1 rest' with
                | Some l => Some ((b' + 64)%N :: l)
                | None => None
                end
              else None
            else None
        end
  end.

Definition alphabet : string :=
  "ABCDEFGHIJKLMNOPQRSTUVWXYZabcdefghijklmnopqrstuvwxyz0123456789+/".

Definition digit (i : N) : ascii :=
  match String.get (N.to_nat i) alphabet with
  | Some c => c
  | None => "="%char
  end.

(** Three octets give four digits of six bits; a last group of one or two
    octets is padded with [=]. *)
Fixpoint base64 (bs : list N) : string :=
  match bs with
  | [] => ""
  | [a] =>
      String (digit (a / 4)) (String (digit (a mod 4 * 16)) "==")
  | [a; b] =>
      String (digit (a / 4))
        (String (digit (a mod 4 * 16 + b / 16))
           (String (digit (b mod 16 * 4)) "="))
  | a :: b :: c :: rest =>
      String (digit (a / 4))
        (String (digit (a mod 4 * 16 + b / 16))
           (String (digit (b mod 16 * 4 + c / 64))
              (String (digit (c mod 64)) (base64 rest))))
  end%N.

Definition btoa (s : string) : option string :=
  match latin1 s with
  | Some bs => Some (base64 bs)
  | None => None
  end.

(** The characters [encodeURIComponent] leaves as they are: letters,
    digits and [- _ . ! ~ * ' ( )]. *)
Definition unreserved (c : ascii) : bool :=
  let n := N_of_ascii c in
  ((65 <=? n) && (n <=? 90) || (97 <=? n) && (n <=? 122)
   || (48 <=? n) && (n <=? 57)
   || (n =? 45) || (n =? 95) || (n =? 46) || (n =? 33) || (n =? 126)
   || (n =? 42) || (n =? 39) || (n =? 40) || (n =? 41))%N.

Definition hex (i : N) : ascii :=
  match String.get (N.to_nat i) "0123456789ABCDEF" with
  | Some c => c
  | None => "0"%char
  end.

(** Every other octet becomes [%XX]. *)
Fixpoint encodeURIComponent (s : string) : string :=
  match s with
  | "" => ""
  | String c rest =>
      if unreserved c then String c (encodeURIComponent rest)
      else
        String "%"
          (String (hex (N_of_ascii c / 16))
             (String (hex (N_of_ascii c mod 16)) (encodeURIComponent rest)))
  end.

(** [AppComponent.decodeURL]: what it writes to the console and what it
    returns; [None] if [btoa] throws. It reads and writes no field. *)
Definition decodeURL : option (list string * string) :=
  match btoa "7f62e3b9729525ac4002588e17fd0cac" with
  | Some base64Encoded =>
      Some ([encodeURIComponent base64Encoded], encodeURIComponent base64Encoded)
  | None => None
  end.

Fixpoint all_chars (p : ascii -> bool) (s : string) : bool :=
  match s with
  | "" => true
  | String c rest => p c && all_chars p rest
  end.

Definition is_ascii (c : ascii) : bool := (N_of_ascii c <? 128)%N.

Definition base64_char (c : ascii) : bool :=
  Uri.contains c alphabet || Ascii.eqb c "=".

(** The characters a percent-encoded string is made of. *)
Definition url_safe (c : ascii) : bool := unreserved c || Ascii.eqb c "%".

End Encoding.

(** * Properties *)

(** ** Strings *)

Lemma substring_whole_prefix (a b : string) :
  String.substring 0 (String.length a) (a +:+ b) = a.
Proof.
  induction a as [|c a IH]; simpl.
  - destruct b; reflexivity.
  - now rewrite IH.
Qed.

Lemma length_append (a b : string) :
  String.length (a +:+ b) = (String.length a + String.length b)%nat.
Proof.
  induction a as [|c a IH]; simpl; [reflexivity | now rewrite IH].
Qed.

Lemma gist_asset_length (id : string) :
  String.length (gist_asset id) = (22 + String.length id)%nat.
Proof.
  unfold gist_asset. rewrite !length_append. simpl. lia.
Qed.

Lemma gist_asset_nonempty (id : string) : gist_asset id <> "".
Proof. unfold gist_asset. simpl. discriminate. Qed.

Lemma gist_asset_inj (a b : string) : gist_asset a = gist_asset b -> a = b.
Proof.
  unfold gist_asset. simpl. intros H.
  repeat (injection H as H).
  revert b H. induction a as [|c a IH]; intros [|d b] H; simpl in H.
  - reflexivity.
  - injection H as Hc Hr. destruct b as [|? [|? [|? [|? [|? ?]]]]]; discriminate.
  - injection H as Hc Hr. destruct a as [|? [|? [|? [|? [|? ?]]]]]; discriminate.
  - injection H as Hc Hr. subst. f_equal. now apply IH.
Qed.

(** ** The resolver *)

(** C1: for every identifier [id], resolution yields a trusted locator whose
    underlying path is exactly ["assets/html/gist_" ++ id ++ ".html"]: the
    identifier sits verbatim, unescaped and whatever its characters, between
    the 17 characters of the prefix and the 5 of the suffix. This holds in
    both versions of the component. *)
Theorem C1_resolve_is_template_substitution :
  forall (id : string),
    (forall u : SafeResourceUrl,
        GistInput.safeUrl
          (GistInput.ngOnInit {| GistInput.safeUrl := u; GistInput.gistId := id |})
        = TrustedResourceUrl ("assets/html/gist_" +:+ (id +:+ ".html")))
    /\ (forall (h : Host.t GistRoute.GistComponent) (u : SafeResourceUrl) (l : bool),
        GistRoute.safeUrl
          (GistRoute.ngOnInit
             (h, {| GistRoute.safeUrl := u;
                    GistRoute.gistId := GistRoute.JsString id;
                    GistRoute.loading := l |})).2
        = TrustedResourceUrl ("assets/html/gist_" +:+ (id +:+ ".html")))
    /\ String.substring 17 (String.length id) (gist_asset id) = id
    /\ String.substring 0 17 (gist_asset id) = "assets/html/gist_"
    /\ String.substring (17 + String.length id) 5 (gist_asset id) = ".html"
    /\ String.length (gist_asset id) = (22 + String.length id)%nat.
Proof.
  intros id.
  split; [intros u; reflexivity |].
  split; [intros h u l; reflexivity |].
  split; [unfold gist_asset; cbn; apply substring_whole_prefix |].
  split; [destruct id; reflexivity |].
  split; [| apply gist_asset_length].
  unfold gist_asset. cbn.
  induction id as [|c id IH]; cbn; [reflexivity | exact IH].
Qed.

(** Path-traversal sequences pass through unchanged. *)
Example resolve_traversal :
  GistInput.safeUrl
    (GistInput.ngOnInit (GistInput.set_gistId "../../index" GistInput.constructor))
  = TrustedResourceUrl "assets/html/gist_../../index.html".
Proof. reflexivity. Qed.

Example resolve_abc123 :
  GistInput.safeUrl
    (GistInput.ngOnInit (GistInput.set_gistId "abc123" GistInput.constructor))
  = TrustedResourceUrl "assets/html/gist_abc123.html".
Proof. reflexivity. Qed.

(** *** Traces of the input-driven version *)

Section GistInputTraces.
Import GistInput.

Lemma input_step_idle (e : Event) (w : World) :
  Host.timeouts w.1 = [] ->
  Host.timeouts (step e w).1 = []
  /\ safeUrl (step e w).2 = safeUrl w.2
  /\ gistId (step e w).2 =
       match e with InputChange v => v | Elapse _ => gistId w.2 end.
Proof.
  destruct w as [h c]. destruct e as [v|dt]; simpl; intros Hq.
  - auto.
  - unfold Host.elapse. rewrite Hq. simpl. auto.
Qed.

Lemma input_run_idle (es : list Event) (w : World) :
  Host.timeouts w.1 = [] ->
  Host.timeouts (run es w).1 = [] /\ safeUrl (run es w).2 = safeUrl w.2.
Proof.
  revert w. induction es as [|e es IH]; intros w Hq; simpl.
  - auto.
  - destruct (input_step_idle e w Hq) as (Hq' & Hu & _).
    destruct (IH (step e w) Hq') as (Hq'' & Hu').
    split; [exact Hq'' | congruence].
Qed.

Lemma input_boot_idle (t0 : N) (es : list Event) :
  Host.timeouts (run es (boot t0)).1 = []
  /\ safeUrl (run es (boot t0)).2 = PlainString "".
Proof. apply (input_run_idle es (boot t0)). reflexivity. Qed.

Lemma input_resolved_once (t0 : N) (es0 es : list Event) :
  safeUrl (run es (init (run es0 (boot t0)))).2
  = TrustedResourceUrl (gist_asset (gistId (run es0 (boot t0)).2))
  /\ Host.timeouts (run es (init (run es0 (boot t0)))).1 = [].
Proof.
  destruct (input_boot_idle t0 es0) as (Hq & _).
  destruct (input_run_idle es (init (run es0 (boot t0))) Hq) as (Hq' & Hu).
  split; [rewrite Hu; reflexivity | exact Hq'].
Qed.

End GistInputTraces.

(** *** Traces of the route-subscribed version *)

Section GistRouteTraces.
Import GistRoute.

Lemma route_step_idle (e : Event) (w : World) :
  Host.timeouts w.1 = [] ->
  Host.timeouts (step e w).1 = []
  /\ safeUrl (step e w).2 = safeUrl w.2
  /\ loading (step e w).2 = loading w.2.
Proof.
  destruct w as [h c]. destruct e as [p|dt]; simpl; intros Hq.
  - auto.
  - unfold Host.elapse. rewrite Hq. simpl. auto.
Qed.

Lemma route_run_idle (es : list Event) (w : World) :
  Host.timeouts w.1 = [] ->
  Host.timeouts (run es w).1 = []
  /\ safeUrl (run es w).2 = safeUrl w.2
  /\ loading (run es w).2 = loading w.2.
Proof.
  revert w. induction es as [|e es IH]; intros w Hq; simpl.
  - auto.
  - destruct (route_step_idle e w Hq) as (Hq' & Hu & Hl).
    destruct (IH (step e w) Hq') as (Hq'' & Hu' & Hl').
    repeat split; congruence.
Qed.

Lemma route_step_phase (t1 : N) (e : Event) (w : World) :
  waiting t1 w \/ expired t1 w ->
  (waiting t1 (step e w) \/ expired t1 (step e w))
  /\ safeUrl (step e w).2 = safeUrl w.2
  /\ Host.now (step e w).1 =
       (Host.now w.1 + match e with Elapse dt => dt | _ => 0 end)%N.
Proof.
  destruct w as [h c]. destruct e as [p|dt]; simpl.
  - intros H. split; [|split; [reflexivity | lia]].
    destruct H as [(Hq & Hl & Hn)|(Hq & Hl & Hn)]; [left|right];
      repeat split; assumption.
  - intros [(Hq & Hl & Hn)|(Hq & Hl & Hn)]; simpl in *;
      unfold Host.elapse; rewrite Hq; simpl.
    + destruct (N.leb_spec (t1 + 1000) (Host.now h + dt)) as [Hle|Hgt]; simpl.
      * split; [right; repeat split; simpl; auto | auto].
      * split; [left; repeat split; simpl; auto | auto].
    + split; [right; repeat split; simpl; auto; lia | auto].
Qed.

Lemma route_run_phase (t1 : N) (es : list Event) (w : World) :
  waiting t1 w \/ expired t1 w ->
  (waiting t1 (run es w) \/ expired t1 (run es w))
  /\ safeUrl (run es w).2 = safeUrl w.2
  /\ Host.now (run es w).1 = (Host.now w.1 + elapsed es)%N.
Proof.
  revert w. induction es as [|e es IH]; intros w H; simpl.
  - repeat split; [assumption | lia].
  - destruct (route_step_phase t1 e w H) as (H' & Hu & Hn).
    destruct (IH (step e w) H') as (H'' & Hu' & Hn').
    repeat split; [assumption | congruence |].
    rewrite Hn', Hn. destruct e; lia.
Qed.

Lemma route_init_waiting (w : World) :
  Host.timeouts w.1 = [] -> loading w.2 = true ->
  waiting (Host.now w.1) (ngOnInit w).
Proof.
  destruct w as [h c]. simpl. intros Hq Hl.
  unfold waiting, ngOnInit, Host.setTimeout. simpl. rewrite Hq. simpl.
  repeat split; [assumption | lia].
Qed.

Lemma phase_loading (t1 : N) (w : World) :
  waiting t1 w \/ expired t1 w ->
  loading w.2 = (Host.now w.1 <? t1 + 1000)%N.
Proof.
  intros [(_ & Hl & Hn)|(_ & Hl & Hn)]; rewrite Hl; symmetry.
  - apply N.ltb_lt. exact Hn.
  - apply N.ltb_ge. exact Hn.
Qed.

End GistRouteTraces.

(** C8: in both versions the locator is the empty placeholder string from
    construction until [ngOnInit] runs, whatever happens in between, and
    from then on it is a trusted locator with a non-empty path, for every
    identifier. *)
Theorem C8_placeholder_until_resolution :
  (forall (t0 : N) (es0 es : list GistInput.Event),
      GistInput.safeUrl (GistInput.run es0 (GistInput.boot t0)).2 = PlainString ""
      /\ is_trusted
           (GistInput.safeUrl
              (GistInput.run es (GistInput.init (GistInput.run es0 (GistInput.boot t0)))).2)
         = true
      /\ underlying
           (GistInput.safeUrl
              (GistInput.run es (GistInput.init (GistInput.run es0 (GistInput.boot t0)))).2)
         <> "")
  /\ (forall (t0 : N) (params : gmap string string) (es0 es : list GistRoute.Event),
      GistRoute.safeUrl (GistRoute.run es0 (GistRoute.boot t0 params)).2 = PlainString ""
      /\ is_trusted
           (GistRoute.safeUrl
              (GistRoute.run es
                 (GistRoute.ngOnInit (GistRoute.run es0 (GistRoute.boot t0 params)))).2)
         = true
      /\ underlying
           (GistRoute.safeUrl
              (GistRoute.run es
                 (GistRoute.ngOnInit (GistRoute.run es0 (GistRoute.boot t0 params)))).2)
         <> "").
Proof.
  split.
  - intros t0 es0 es.
    destruct (input_boot_idle t0 es0) as (_ & Hu).
    destruct (input_resolved_once t0 es0 es) as (Hr & _).
    rewrite Hr. repeat split; [exact Hu | apply gist_asset_nonempty].
  - intros t0 params es0 es.
    destruct (route_run_idle es0 (GistRoute.boot t0 params) eq_refl)
      as (Hq & Hu & Hl).
    pose proof (route_init_waiting _ Hq Hl) as Hw.
    destruct (route_run_phase _ es _ (or_introl Hw)) as (_ & Hu' & _).
    rewrite Hu'. repeat split; [exact Hu | apply gist_asset_nonempty].
Qed.

(** C2: the loading flag of the resolver is [true] at construction and
    stays so whatever happens before [ngOnInit]; once [ngOnInit] has run at
    time [t1], after any trace of events the flag is [true] exactly when
    less than 1000 time units have passed since [t1]. So it is [true] until
    the one-shot timer expires, [false] from then on, and never comes back
    to [true]. *)
Theorem C2_loading_until_timer :
  forall (t0 : N) (params : gmap string string) (es0 es : list GistRoute.Event),
    GistRoute.loading (GistRoute.constructor params) = true
    /\ GistRoute.loading (GistRoute.run es0 (GistRoute.boot t0 params)).2 = true
    /\ Host.now
         (GistRoute.run es
            (GistRoute.ngOnInit (GistRoute.run es0 (GistRoute.boot t0 params)))).1
       = (t0 + GistRoute.elapsed es0 + GistRoute.elapsed es)%N
    /\ GistRoute.loading
         (GistRoute.run es
            (GistRoute.ngOnInit (GistRoute.run es0 (GistRoute.boot t0 params)))).2
       = (GistRoute.elapsed es <? 1000)%N.
Proof.
  intros t0 params es0 es.
  destruct (route_run_idle es0 (GistRoute.boot t0 params) eq_refl)
    as (Hq & Hu & Hl).
  assert (Hn0 : Host.now (GistRoute.run es0 (GistRoute.boot t0 params)).1
                = (t0 + GistRoute.elapsed es0)%N).
  { assert (G : forall w, Host.timeouts w.1 = [] ->
                Host.now (GistRoute.run es0 w).1
                = (Host.now w.1 + GistRoute.elapsed es0)%N).
    { clear. induction es0 as [|e es IH]; intros w Hq; simpl; [lia|].
      destruct (route_step_idle e w Hq) as (Hq' & _).
      rewrite (IH _ Hq'). destruct w as [h c], e as [p|dt]; simpl; [lia|].
      simpl in Hq. unfold Host.elapse. rewrite Hq. simpl. lia. }
    apply (G (GistRoute.boot t0 params)). reflexivity. }
  pose proof (route_init_waiting _ Hq Hl) as Hw.
  destruct (route_run_phase _ es _ (or_introl Hw)) as (Hp & _ & Hn).
  split; [reflexivity|]. split; [exact Hl|].
  assert (Hi : Host.now
                 (GistRoute.ngOnInit (GistRoute.run es0 (GistRoute.boot t0 params))).1
               = (t0 + GistRoute.elapsed es0)%N).
  { rewrite <- Hn0. reflexivity. }
  split; [rewrite Hn, Hi; reflexivity|].
  rewrite (phase_loading _ _ Hp), Hn, Hi, Hn0.
  destruct (N.ltb_spec (GistRoute.elapsed es) 1000);
    [apply N.ltb_lt | apply N.ltb_ge]; lia.
Qed.

(** C6, as the code has it: both versions resolve exactly once, in
    [ngOnInit], from the identifier held at that moment. In the
    route-subscribed version a later emission of [route.params] changes
    [gistId] and leaves the locator alone; in the input-driven version a
    later change of the input does the same, and that version never has a
    timer pending. *)
Theorem C6_both_versions_resolve_once :
  (forall (t0 : N) (params : gmap string string) (es0 es : list GistRoute.Event),
      GistRoute.safeUrl
        (GistRoute.run es
           (GistRoute.ngOnInit (GistRoute.run es0 (GistRoute.boot t0 params)))).2
      = TrustedResourceUrl
          (gist_asset
             (GistRoute.to_string
                (GistRoute.gistId (GistRoute.run es0 (GistRoute.boot t0 params)).2))))
  /\ (forall (w : GistRoute.World) (p : gmap string string),
      GistRoute.gistId (GistRoute.step (GistRoute.ParamsEmit p) w).2
      = GistRoute.index p "gistId"
      /\ GistRoute.safeUrl (GistRoute.step (GistRoute.ParamsEmit p) w).2
         = GistRoute.safeUrl w.2)
  /\ (forall (t0 : N) (es0 es : list GistInput.Event),
      GistInput.safeUrl
        (GistInput.run es (GistInput.init (GistInput.run es0 (GistInput.boot t0)))).2
      = TrustedResourceUrl
          (gist_asset (GistInput.gistId (GistInput.run es0 (GistInput.boot t0)).2))
      /\ Host.timeouts
           (GistInput.run es (GistInput.init (GistInput.run es0 (GistInput.boot t0)))).1
         = [])
  /\ (forall (w : GistInput.World) (v : string),
      GistInput.gistId (GistInput.step (GistInput.InputChange v) w).2 = v
      /\ GistInput.safeUrl (GistInput.step (GistInput.InputChange v) w).2
         = GistInput.safeUrl w.2).
Proof.
  split; [|split; [|split]].
  - intros t0 params es0 es.
    destruct (route_run_idle es0 (GistRoute.boot t0 params) eq_refl)
      as (Hq & _ & Hl).
    pose proof (route_init_waiting _ Hq Hl) as Hw.
    destruct (route_run_phase _ es _ (or_introl Hw)) as (_ & Hu & _).
    rewrite Hu. reflexivity.
  - intros [h c] p. split; reflexivity.
  - intros t0 es0 es. apply input_resolved_once.
  - intros [h c] v. split; reflexivity.
Qed.

(** C6, as the claim has it, fails: the input-driven version is
    initialised with the identifier ["a"], then its input changes to
    ["b"]; the locator still names the asset of ["a"], not that of
    ["b"]. *)
Lemma C6_input_change_keeps_old_locator :
  GistInput.safeUrl
    (GistInput.run [GistInput.InputChange "b"]
       (GistInput.init
          (GistInput.run [GistInput.InputChange "a"] (GistInput.boot 0)))).2
  = TrustedResourceUrl "assets/html/gist_a.html"
  /\ GistInput.gistId
       (GistInput.run [GistInput.InputChange "b"]
          (GistInput.init
             (GistInput.run [GistInput.InputChange "a"] (GistInput.boot 0)))).2
     = "b"
  /\ TrustedResourceUrl "assets/html/gist_a.html"
     <> bypassSecurityTrustResourceUrl (gist_asset "b").
Proof.
  split; [reflexivity|]. split; [reflexivity|].
  intros H. discriminate H.
Qed.

(** ** The shell *)

Section AppTraces.
Import App.

Lemma run_app (es1 es2 : list Event) (w : World) :
  run (es1 ++ es2) w = run es2 (run es1 w).
Proof. unfold run. apply foldl_app. Qed.

Lemma listening_inv (w : World) :
  listening w = true ->
  closed (resizeSubject (this w)) = false
  /\ observed (resizeSubject (this w)) = true.
Proof.
  unfold listening. destruct (closed _), (observed _); simpl; auto; discriminate.
Qed.

Lemma step_sideNavOpened (e : Event) (w : World) :
  sideNavOpened (this (step e w))
  = if is_close e then false else sideNavOpened (this w).
Proof.
  destruct e as [x| |dt| |]; simpl; try reflexivity.
  - unfold onWindowResize, subject_next.
    destruct (closed _); [reflexivity|]. destruct (observed _); reflexivity.
  - unfold elapse. destruct (debounce w) as [[d v]|]; [|reflexivity].
    destruct (d <=? now w + dt)%N; reflexivity.
Qed.

Lemma run_sideNavOpened (es : list Event) (w : World) :
  sideNavOpened (this (run es w))
  = if existsb is_close es then false else sideNavOpened (this w).
Proof.
  revert w. induction es as [|e es IH]; intros w; simpl; [reflexivity|].
  fold (run es (step e w)). rewrite IH, step_sideNavOpened.
  destruct (is_close e); simpl; [|reflexivity].
  destruct (existsb is_close es); reflexivity.
Qed.

Lemma last_cons_default {A : Type} (l : list A) (a d : A) :
  List.last (a :: l) d = List.last l a.
Proof.
  revert a d. induction l as [|b l IH]; intros a d; [reflexivity|].
  change (List.last (a :: b :: l) d) with (List.last (b :: l) d).
  rewrite (IH b d), (IH b a). reflexivity.
Qed.

(** One resize input, from a listening component. *)
Lemma run_resize_input (gap : N) (width : Z) (w : World) :
  listening w = true ->
  listening (run (resize_input (gap, width)) w) = true
  /\ now (run (resize_input (gap, width)) w) = (now w + gap)%N
  /\ debounce (run (resize_input (gap, width)) w)
     = Some ((now w + gap + dueTime)%N, width)
  /\ delivered (run (resize_input (gap, width)) w)
     = delivered w ++
       match debounce w with
       | Some (d, v) => if (d <=? now w + gap)%N then [(d, v)] else []
       | None => []
       end.
Proof.
  intros L. destruct (listening_inv w L) as (Hc & Ho).
  unfold resize_input, run. simpl.
  unfold onWindowResize, subject_next, elapse. simpl.
  destruct (debounce w) as [[d v]|]; simpl.
  - destruct (d <=? now w + gap)%N; simpl; rewrite Hc, Ho; simpl;
      unfold listening; simpl; rewrite ?Hc, ?Ho, ?app_nil_r; auto.
  - rewrite Hc, Ho; simpl. unfold listening; simpl.
    rewrite ?Hc, ?Ho, ?app_nil_r; auto.
Qed.

(** Inputs that keep coming before the deadline only move it. *)
Lemma run_dense_tail (rest : list (N * Z)) (v : Z) (w : World) :
  listening w = true ->
  debounce w = Some ((now w + dueTime)%N, v) ->
  forallb (fun i => (i.1 <? dueTime)%N) rest = true ->
  listening (run (concat (map resize_input rest)) w) = true
  /\ now (run (concat (map resize_input rest)) w) = arrival (now w) rest
  /\ debounce (run (concat (map resize_input rest)) w)
     = Some ((arrival (now w) rest + dueTime)%N, List.last (map snd rest) v)
  /\ delivered (run (concat (map resize_input rest)) w) = delivered w.
Proof.
  revert v w. induction rest as [|[gap width] rest IH]; intros v w L D F.
  - simpl. auto.
  - simpl in F. apply andb_true_iff in F as [Hg F]. apply N.ltb_lt in Hg.
    cbn [map concat]. rewrite run_app.
    destruct (run_resize_input gap width w L) as (L1 & N1 & D1 & O1).
    rewrite D in O1.
    destruct (N.leb_spec (now w + dueTime) (now w + gap)) as [Hle|_]; [lia|].
    rewrite app_nil_r in O1.
    assert (D1' : debounce (run (resize_input (gap, width)) w)
                  = Some ((now (run (resize_input (gap, width)) w) + dueTime)%N, width))
      by (rewrite D1, N1; reflexivity).
    destruct (IH width _ L1 D1' F) as (L2 & N2 & D2 & O2).
    rewrite N1 in N2, D2.
    repeat split; [exact L2 | exact N2 | | congruence].
    rewrite D2. cbn [map snd]. rewrite last_cons_default. reflexivity.
Qed.

(** A whole burst, from a component with no deadline pending. *)
Lemma run_dense (inputs : list (N * Z)) (w : World) :
  listening w = true ->
  debounce w = None ->
  dense inputs = true ->
  listening (run (concat (map resize_input inputs)) w) = true
  /\ now (run (concat (map resize_input inputs)) w) = arrival (now w) inputs
  /\ debounce (run (concat (map resize_input inputs)) w)
     = Some ((arrival (now w) inputs + dueTime)%N, last_width inputs)
  /\ delivered (run (concat (map resize_input inputs)) w) = delivered w.
Proof.
  intros L D F. destruct inputs as [|[gap width] rest]; [discriminate|].
  simpl in F. cbn [map concat]. rewrite run_app.
  destruct (run_resize_input gap width w L) as (L1 & N1 & D1 & O1).
  rewrite D, app_nil_r in O1.
  assert (D1' : debounce (run (resize_input (gap, width)) w)
                = Some ((now (run (resize_input (gap, width)) w) + dueTime)%N, width))
    by (rewrite D1, N1; reflexivity).
  destruct (run_dense_tail rest width _ L1 D1' F) as (L2 & N2 & D2 & O2).
  rewrite N1 in N2, D2.
  repeat split; [exact L2 | exact N2 | | congruence].
  rewrite D2. unfold last_width. cbn [map snd].
  rewrite last_cons_default. reflexivity.
Qed.

(** The quiet period after a burst. *)
Lemma run_quiet (quiet : N) (v : Z) (w : World) :
  debounce w = Some ((now w + dueTime)%N, v) ->
  delivered (elapse quiet w)
  = delivered w ++ (if (dueTime <=? quiet)%N then [((now w + dueTime)%N, v)] else [])
  /\ debounce (elapse quiet w)
     = (if (dueTime <=? quiet)%N then None else debounce w)
  /\ listening (elapse quiet w) = listening w.
Proof.
  intros D. unfold elapse. rewrite D.
  destruct (N.leb_spec dueTime quiet) as [H|H].
  - destruct (N.leb_spec (now w + dueTime) (now w + quiet)) as [_|H']; [|lia].
    simpl. auto.
  - destruct (N.leb_spec (now w + dueTime) (now w + quiet)) as [H'|_]; [lia|].
    simpl. rewrite app_nil_r. auto.
Qed.

Lemma run_burst (inputs : list (N * Z)) (quiet : N) (w : World) :
  listening w = true ->
  debounce w = None ->
  dense inputs = true ->
  delivered (run (burst inputs quiet) w)
  = delivered w ++
    (if (dueTime <=? quiet)%N
     then [((arrival (now w) inputs + dueTime)%N, last_width inputs)] else [])
  /\ debounce (run (burst inputs quiet) w)
     = (if (dueTime <=? quiet)%N then None
        else Some ((arrival (now w) inputs + dueTime)%N, last_width inputs))
  /\ listening (run (burst inputs quiet) w) = true.
Proof.
  intros L D F. unfold burst. rewrite run_app.
  destruct (run_dense inputs w L D F) as (L1 & N1 & D1 & O1).
  rewrite <- N1 in D1.
  destruct (run_quiet quiet _ _ D1) as (O2 & D2 & L2).
  change (run [Elapse quiet] ?x) with (elapse quiet x).
  rewrite O2, D2, L2, O1, D1, N1. auto.
Qed.

End AppTraces.

(** The operator against the spec's wording, for any sequence of inputs. *)
Lemma run_any_inputs (inputs : list (N * Z)) (quiet : N) (held : option Z)
      (w : App.World) :
  App.listening w = true ->
  App.debounce w
  = match held with
    | Some v => Some ((App.now w + App.dueTime)%N, v)
    | None => None
    end ->
  App.delivered (App.run (App.burst inputs quiet) w)
  = App.delivered w ++ App.debounced (App.now w) held inputs quiet.
Proof.
  revert held w. induction inputs as [|[gap width] rest IH]; intros held w L D.
  - unfold App.burst. cbn [map concat app App.debounced].
    change (App.run [App.Elapse quiet] w) with (App.elapse quiet w).
    destruct held as [v|].
    + destruct (run_quiet quiet v w D) as (O & _). exact O.
    + unfold App.elapse. rewrite D. simpl. now rewrite app_nil_r.
  - unfold App.burst. cbn [map concat]. rewrite <- app_assoc, run_app.
    fold (App.burst rest quiet).
    destruct (run_resize_input gap width w L) as (L1 & N1 & D1 & O1).
    rewrite (IH (Some width) _ L1); [|rewrite D1, N1; reflexivity].
    rewrite O1, N1, D, <- app_assoc. f_equal.
    cbn [App.debounced fst snd]. f_equal.
    destruct held as [v|]; [|reflexivity].
    destruct (N.leb_spec (App.now w + App.dueTime) (App.now w + gap));
      destruct (N.leb_spec App.dueTime gap); try reflexivity; lia.
Qed.

Lemma run_bursts (bs : list (list (N * Z) * N)) (w : App.World) :
  App.listening w = true ->
  App.debounce w = None ->
  forallb App.settled bs = true ->
  map snd (App.delivered (App.run (App.bursts bs) w))
  = map snd (App.delivered w) ++ map (fun b => App.last_width b.1) bs
  /\ App.debounce (App.run (App.bursts bs) w) = None
  /\ App.listening (App.run (App.bursts bs) w) = true.
Proof.
  revert w. induction bs as [|[inputs quiet] bs IH]; intros w L D F.
  - simpl. rewrite app_nil_r. auto.
  - simpl in F. apply andb_true_iff in F as [S F].
    unfold App.settled in S. simpl in S. apply andb_true_iff in S as [Hd Hq].
    unfold App.bursts. cbn [map concat]. rewrite run_app.
    destruct (run_burst inputs quiet w L D Hd) as (O1 & D1 & L1).
    rewrite Hq in O1, D1.
    destruct (IH _ L1 D1 F) as (O2 & D2 & L2).
    fold (App.bursts bs). cbn [fst snd].
    rewrite O2, O1, map_app. cbn [map snd].
    rewrite <- app_assoc. auto.
Qed.

(** C3: take a component that is listening with no deadline pending, and a
    burst of resize inputs in which every input after the first comes less
    than 200 time units after the one before. Whatever the quiet period
    that follows, nothing is delivered before it has lasted 200 time units;
    once it has, exactly one value is delivered, at 200 time units after
    the last input, and it is the width of that last input. A sequence of
    such bursts, each left 200 time units or more to settle, delivers one
    value per burst, the last width of each, in order. And for any finite
    sequence of inputs whatever, what is delivered is what the spec's
    wording of the debouncer passes on. *)
Theorem C3_debounce_delivers_last_of_each_burst :
  forall (w : App.World) (inputs : list (N * Z)) (quiet : N)
         (bs : list (list (N * Z) * N)) (any : list (N * Z)),
    App.listening w = true ->
    App.debounce w = None ->
    App.dense inputs = true ->
    forallb App.settled bs = true ->
    App.delivered (App.run (App.burst inputs quiet) w)
    = App.delivered w ++
      (if (200 <=? quiet)%N
       then [((App.arrival (App.now w) inputs + 200)%N, App.last_width inputs)]
       else [])
    /\ map snd (App.delivered (App.run (App.bursts bs) w))
       = map snd (App.delivered w) ++ map (fun b => App.last_width b.1) bs
    /\ App.delivered (App.run (App.burst any quiet) w)
       = App.delivered w ++ App.debounced (App.now w) None any quiet.
Proof.
  intros w inputs quiet bs any L D Hd Hs. split; [|split].
  - apply (run_burst inputs quiet w L D Hd).
  - apply (run_bursts bs w L D Hs).
  - apply (run_any_inputs any quiet None w L D).
Qed.

(** C3 at three inputs 10 and 199 time units apart, at two bursts in a
    row, and at a sequence whose first input is left alone for 300 time
    units. *)
Lemma C3_debounce_witness :
  App.delivered
    (App.run (App.burst [(5%N, 500%Z); (10%N, 600%Z); (199%N, 900%Z)] 200)
       (App.start 0 1200))
  = [(414%N, 900%Z)]
  /\ map snd
       (App.delivered
          (App.run
             (App.bursts [([(0%N, 500%Z)], 200%N);
                          ([(7%N, 1200%Z); (3%N, 1300%Z)], 250%N)])
             (App.start 0 1200)))
     = [500%Z; 1300%Z]
  /\ App.delivered
       (App.run (App.burst [(0%N, 500%Z); (300%N, 600%Z); (10%N, 700%Z)] 200)
          (App.start 0 1200))
     = [(200%N, 500%Z); (510%N, 700%Z)].
Proof.
  destruct (C3_debounce_delivers_last_of_each_burst
              (App.start 0 1200)
              [(5%N, 500%Z); (10%N, 600%Z); (199%N, 900%Z)] 200%N
              [([(0%N, 500%Z)], 200%N); ([(7%N, 1200%Z); (3%N, 1300%Z)], 250%N)]
              [(0%N, 500%Z); (300%N, 600%Z); (10%N, 700%Z)]
              eq_refl eq_refl eq_refl eq_refl) as (H1 & H2 & H3).
  split; [exact H1 | split; [exact H2 | exact H3]].
Defined.

(** Inputs 199 time units apart never let the window close. *)
Example debounce_starved :
  App.delivered
    (App.run (App.burst [(0%N, 500%Z); (199%N, 600%Z); (199%N, 700%Z)] 199)
       (App.start 0 1200))
  = [].
Proof. reflexivity. Qed.

(** C4: created in a viewport of width [width], the shell has
    [isSmallScreen = (width < 800)] and [sideNavOpened = !isSmallScreen],
    and [ngOnInit] throws nothing; so width 700 gives a small screen with
    the navigation closed, width 1200 a large one with it open. *)
Theorem C4_initial_layout :
  forall (t0 : N) (width : Z),
    App.isSmallScreen (App.this (App.start t0 width)) = (width <? 800)%Z
    /\ App.sideNavOpened (App.this (App.start t0 width))
       = negb (App.isSmallScreen (App.this (App.start t0 width)))
    /\ (App.ngOnInit (App.boot t0 width)).2 = None
    /\ App.isSmallScreen (App.this (App.start t0 700)) = true
    /\ App.sideNavOpened (App.this (App.start t0 700)) = false
    /\ App.isSmallScreen (App.this (App.start t0 1200)) = false
    /\ App.sideNavOpened (App.this (App.start t0 1200)) = true.
Proof.
  intros t0 width. repeat split; reflexivity.
Qed.

(** C5: no resize changes [sideNavOpened]. After any trace of events the
    flag is [false] if the close signal occurred in the trace and is what
    it was before otherwise; the debounced subscriber itself writes
    [isSmallScreen] and nothing else. Starting at width 1200, a resize to
    500 followed by 200 time units makes [isSmallScreen] true and leaves
    [sideNavOpened] true, until the close signal sets it to [false]. *)
Theorem C5_resize_keeps_sideNavOpened :
  forall (w : App.World) (es : list App.Event) (event : Z),
    App.sideNavOpened (App.this (App.run es w))
    = (if existsb App.is_close es then false else App.sideNavOpened (App.this w))
    /\ App.sideNavOpened (App.this (App.on_debounced event w))
       = App.sideNavOpened (App.this w)
    /\ App.resizeSubject (App.this (App.on_debounced event w))
       = App.resizeSubject (App.this w)
    /\ App.isSmallScreen
         (App.this
            (App.run [App.ViewportChange 500; App.WindowResize; App.Elapse 200]
               (App.start 0 1200)))
       = true
    /\ App.sideNavOpened
         (App.this
            (App.run [App.ViewportChange 500; App.WindowResize; App.Elapse 200]
               (App.start 0 1200)))
       = true
    /\ App.sideNavOpened
         (App.this
            (App.run [App.ViewportChange 500; App.WindowResize; App.Elapse 200;
                      App.SidenavClosed]
               (App.start 0 1200)))
       = false.
Proof.
  intros w es event.
  split; [apply run_sideNavOpened|].
  repeat split; reflexivity.
Qed.

(** [ngOnDestroy] closes the subject and leaves the debounced subscription,
    with its pending deadline, as it was. *)
Lemma ngOnDestroy_frame (w : App.World) :
  App.closed (App.resizeSubject (App.this (App.ngOnDestroy w))) = true
  /\ App.debounce (App.ngOnDestroy w) = App.debounce w
  /\ App.onWindowResize (App.ngOnDestroy w)
     = (App.ngOnDestroy w, Some App.ObjectUnsubscribedError).
Proof. repeat split; reflexivity. Qed.

Lemma elapse_fires (w : App.World) (deadline : N) (value : Z) (dt : N) :
  App.debounce w = Some (deadline, value) ->
  (deadline <= App.now w + dt)%N ->
  App.elapse dt w
  = {| App.now := (App.now w + dt)%N;
       App.innerWidth := App.innerWidth w;
       App.this := App.set_isSmallScreen (App.innerWidth w <? 800)%Z (App.this w);
       App.debounce := None;
       App.delivered := App.delivered w ++ [(deadline, value)] |}.
Proof.
  intros D H. unfold App.elapse. rewrite D.
  destruct (N.leb_spec deadline (App.now w + dt)) as [_|H']; [reflexivity | lia].
Qed.

(** C9: whenever the debounce fires, with whatever value it carries, the
    subscriber is handed that value and sets [isSmallScreen] from the width
    the viewport has at that moment; the value carried plays no part. It
    decides the flag only when it is still the viewport's width. *)
Theorem C9_subscriber_reads_live_width :
  forall (w : App.World) (deadline : N) (value : Z) (dt : N),
    App.debounce w = Some (deadline, value) ->
    (deadline <= App.now w + dt)%N ->
    App.delivered (App.step (App.Elapse dt) w)
    = App.delivered w ++ [(deadline, value)]
    /\ App.isSmallScreen (App.this (App.step (App.Elapse dt) w))
       = (App.innerWidth w <? 800)%Z
    /\ App.innerWidth (App.step (App.Elapse dt) w) = App.innerWidth w
    /\ (forall event : Z,
           App.isSmallScreen (App.this (App.on_debounced event w))
           = (App.innerWidth w <? 800)%Z)
    /\ (forall width : Z,
           App.isSmallScreen
             (App.this (App.step (App.Elapse dt) (App.set_innerWidth width w)))
           = (width <? 800)%Z).
Proof.
  intros w deadline value dt D H.
  cbn [App.step].
  split; [|split; [|split; [|split]]].
  - rewrite (elapse_fires w deadline value dt D H). reflexivity.
  - rewrite (elapse_fires w deadline value dt D H). reflexivity.
  - rewrite (elapse_fires w deadline value dt D H). reflexivity.
  - intros event. reflexivity.
  - intros width.
    rewrite (elapse_fires (App.set_innerWidth width w) deadline value dt D H).
    reflexivity.
Qed.

(** The viewport goes to 500 and the resize event is dispatched; then it
    goes back to 1200 without the event having been dispatched yet when the
    debounce fires: the value handed over is 500, the flag says large. *)
Lemma C9_subscriber_witness :
  App.delivered
    (App.step (App.Elapse 200)
       (App.run [App.ViewportChange 500; App.WindowResize; App.ViewportChange 1200]
          (App.start 0 1200)))
  = [(200%N, 500%Z)]
  /\ App.isSmallScreen
       (App.this
          (App.step (App.Elapse 200)
             (App.run [App.ViewportChange 500; App.WindowResize; App.ViewportChange 1200]
                (App.start 0 1200))))
     = false.
Proof.
  pose proof
    (C9_subscriber_reads_live_width
       (App.run [App.ViewportChange 500; App.WindowResize; App.ViewportChange 1200]
          (App.start 0 1200))
       200%N 500%Z 200%N eq_refl) as H.
  destruct H as (Hd & Hs & _); [vm_compute; discriminate|].
  split; [exact Hd | exact Hs].
Defined.

(** When the width has not changed since the last resize event, the flag
    agrees with the value handed over. *)
Example subscriber_agrees_when_unchanged :
  App.delivered
    (App.run [App.ViewportChange 500; App.WindowResize; App.Elapse 200]
       (App.start 0 1200))
  = [(200%N, 500%Z)]
  /\ App.isSmallScreen
       (App.this
          (App.run [App.ViewportChange 500; App.WindowResize; App.Elapse 200]
             (App.start 0 1200)))
     = (500 <? 800)%Z.
Proof. split; reflexivity. Qed.

(** C7, on the code: a resize to width 500 at time 0, then [ngOnDestroy] at
    time 100. The subject is closed and a later [next] throws, but the
    deadline set at time 0 is still pending; at time 200 the subscriber
    runs and writes [isSmallScreen] of the destroyed component. *)
Theorem C7_pending_window_fires_after_ngOnDestroy :
  App.closed
    (App.resizeSubject
       (App.this
          (App.run [App.ViewportChange 500; App.WindowResize; App.Elapse 100;
                    App.Destroy]
             (App.start 0 1200))))
  = true
  /\ App.debounce
       (App.run [App.ViewportChange 500; App.WindowResize; App.Elapse 100;
                 App.Destroy]
          (App.start 0 1200))
     = Some (200%N, 500%Z)
  /\ App.isSmallScreen
       (App.this
          (App.run [App.ViewportChange 500; App.WindowResize; App.Elapse 100;
                    App.Destroy]
             (App.start 0 1200)))
     = false
  /\ App.delivered
       (App.run [App.ViewportChange 500; App.WindowResize; App.Elapse 100;
                 App.Destroy; App.Elapse 100]
          (App.start 0 1200))
     = [(200%N, 500%Z)]
  /\ App.isSmallScreen
       (App.this
          (App.run [App.ViewportChange 500; App.WindowResize; App.Elapse 100;
                    App.Destroy; App.Elapse 100]
             (App.start 0 1200)))
     = true.
Proof. repeat split; reflexivity. Qed.

(** ** Routing *)

Lemma decode_plain (fuel : nat) (s : string) :
  Uri.contains "%" s = false ->
  (String.length s <= fuel)%nat ->
  Uri.decode fuel s = Some s.
Proof.
  revert fuel. induction s as [|c s IH]; intros fuel Hc Hf;
    [destruct fuel; reflexivity|].
  destruct fuel as [|fuel]; [simpl in Hf; lia|].
  simpl in Hc. apply orb_false_iff in Hc as [Hc Hs].
  cbn [Uri.decode]. rewrite Hc.
  rewrite (IH fuel Hs); [reflexivity | simpl in Hf; lia].
Qed.

Lemma decodeURIComponent_plain (s : string) :
  Uri.contains "%" s = false -> Uri.decodeURIComponent s = Some s.
Proof. intros H. apply decode_plain; [exact H | lia]. Qed.

Lemma recognize_none :
  Routing.recognize Routing.MAX_ALLOWED_REDIRECTS Routing.routes []
  = Routing.Activated Routing.WelcomeComponent ∅.
Proof. reflexivity. Qed.

Lemma recognize_one (id : string) :
  Routing.recognize Routing.MAX_ALLOWED_REDIRECTS Routing.routes [id]
  = Routing.Activated Routing.GistComponent (<["gistId" := id]> ∅).
Proof. reflexivity. Qed.

Lemma recognize_many (a b : string) (l : list string) :
  Routing.recognize Routing.MAX_ALLOWED_REDIRECTS Routing.routes (a :: b :: l)
  = Routing.Activated Routing.WelcomeComponent ∅.
Proof. reflexivity. Qed.




(** The route table on the plain segments of a URL. *)
Lemma recognize_url_tree (raw : list string) :
  Routing.recognize Routing.MAX_ALLOWED_REDIRECTS Routing.routes
    (Routing.url_tree raw)
  = match raw with
    | [s] =>
        match Uri.decodeURIComponent s with
        | Some id =>
            Routing.Activated Routing.GistComponent (<["gistId" := id]> ∅)
        | None => Routing.Activated Routing.WelcomeComponent ∅
        end
    | _ => Routing.Activated Routing.WelcomeComponent ∅
    end.
Proof.
  unfold Routing.url_tree.
  destruct raw as [|s1 [|s2 rest]]; cbn [mapM].
  - reflexivity.
  - destruct (Uri.decodeURIComponent s1); reflexivity.
  - destruct (Uri.decodeURIComponent s1); [|reflexivity].
    destruct (Uri.decodeURIComponent s2); [|reflexivity].
    destruct (mapM Uri.decodeURIComponent rest); reflexivity.
Qed.





(** * Further properties of the code *)

(** ** The shell between its events *)

Section AppInvariants.
Import App.

Lemma last_time_snoc (log : list (N * Z)) (d : N) (v : Z) :
  last_time (log ++ [(d, v)]) = d.
Proof.
  unfold last_time. rewrite map_app. cbn [map fst].
  generalize (map fst log) as l. intros l.
  induction l as [|a l IH]; [reflexivity|].
  cbn [app]. destruct l as [|b l]; [reflexivity|].
  change (List.last (a :: (b :: l) ++ [d]) 0%N)
    with (List.last ((b :: l) ++ [d]) 0%N).
  exact IH.
Qed.

Lemma spaced_snoc (log : list (N * Z)) (d : N) (v : Z) :
  spaced log = true ->
  (last_time log + dueTime <= d)%N ->
  spaced (log ++ [(d, v)]) = true.
Proof.
  induction log as [|a log IH]; intros S H; [reflexivity|].
  destruct log as [|b log].
  - cbn. unfold last_time in H. cbn in H.
    apply andb_true_iff. split; [apply N.leb_le; exact H | reflexivity].
  - cbn [app spaced] in *. apply andb_true_iff in S as [S1 S2].
    apply andb_true_iff. split; [exact S1|].
    apply IH; [exact S2|].
    unfold last_time in *. cbn [map] in *.
    rewrite last_cons_default in H. rewrite last_cons_default.
    rewrite last_cons_default in H. exact H.
Qed.

Lemma step_paced (e : Event) (w : World) : paced w -> paced (step e w).
Proof.
  intros (S & T & D). destruct e as [x| |dt| |]; cbn [step].
  - exact (conj S (conj T D)).
  - unfold onWindowResize, subject_next.
    destruct (closed _); [exact (conj S (conj T D))|].
    destruct (observed _); [|exact (conj S (conj T D))].
    unfold paced, debounce_next. cbn [fst delivered now debounce].
    repeat split; [exact S | exact T | lia].
  - unfold elapse. destruct (debounce w) as [[d v]|] eqn:E.
    + destruct (N.leb_spec d (now w + dt)) as [Hle|Hgt].
      * unfold paced, on_debounced, set_this. cbn [delivered now debounce].
        rewrite last_time_snoc.
        repeat split; [apply spaced_snoc; assumption | exact Hle].
      * unfold paced. cbn [delivered now debounce]. rewrite E.
        repeat split; [exact S | lia | exact D].
    + unfold paced. cbn [delivered now debounce]. rewrite E.
      repeat split; [exact S | lia].
  - exact (conj S (conj T D)).
  - exact (conj S (conj T D)).
Qed.

Lemma run_paced (es : list Event) (w : World) : paced w -> paced (run es w).
Proof.
  revert w. induction es as [|e es IH]; intros w P; [exact P|].
  apply (IH (step e w)). apply step_paced. exact P.
Qed.

Lemma start_paced (t0 : N) (width : Z) : paced (start t0 width).
Proof.
  unfold paced. cbn [start ngOnInit boot delivered debounce now].
  repeat split. unfold last_time. cbn. lia.
Qed.

End AppInvariants.

(** X1: from creation on, whatever the events, two successive calls of the
    debounced subscriber are 200 time units apart or more, and none is
    dated after the clock. *)
Theorem layout_updates_are_paced :
  forall (t0 : N) (width : Z) (es : list App.Event),
    App.spaced (App.delivered (App.run es (App.start t0 width))) = true
    /\ (App.last_time (App.delivered (App.run es (App.start t0 width)))
        <= App.now (App.run es (App.start t0 width)))%N.
Proof.
  intros t0 width es.
  destruct (run_paced es _ (start_paced t0 width)) as (S & T & _).
  split; assumption.
Qed.

Section AppEdges.
Import App.

Lemma step_ahead (e : Event) (w : World) : ahead w -> ahead (step e w).
Proof.
  unfold ahead. intros A. destruct e as [x| |dt| |]; cbn [step]; try exact A.
  - unfold onWindowResize, subject_next.
    destruct (closed _); [exact A|]. destruct (observed _); [|exact A].
    unfold debounce_next, dueTime. cbn [fst debounce now]. lia.
  - unfold elapse. destruct (debounce w) as [[d v]|] eqn:E.
    + destruct (N.leb_spec d (now w + dt)) as [Hle|Hgt].
      * cbn [debounce on_debounced set_this]. exact I.
      * cbn [debounce now]. rewrite E. exact Hgt.
    + cbn [debounce now]. rewrite E. exact I.
Qed.

Lemma run_ahead (es : list Event) (w : World) : ahead w -> ahead (run es w).
Proof.
  revert w. induction es as [|e es IH]; intros w A; [exact A|].
  apply (IH (step e w)). apply step_ahead. exact A.
Qed.

Lemma start_ahead (t0 : N) (width : Z) : ahead (start t0 width).
Proof. exact I. Qed.

(** Once the subject is closed, the only thing left to happen is the
    pending deadline. *)
Lemma run_closed (es : list Event) (w : World) :
  closed (resizeSubject (this w)) = true ->
  ahead w ->
  closed (resizeSubject (this (run es w))) = true
  /\ now (run es w) = (now w + elapsed es)%N
  /\ delivered (run es w)
     = delivered w ++
       match debounce w with
       | Some (d, v) => if (d <=? now w + elapsed es)%N then [(d, v)] else []
       | None => []
       end
  /\ debounce (run es w)
     = match debounce w with
       | Some (d, v) => if (d <=? now w + elapsed es)%N then None else Some (d, v)
       | None => None
       end.
Proof.
  revert w. induction es as [|e es IH]; intros w C A.
  - cbn [run foldl elapsed foldr]. rewrite N.add_0_r. unfold ahead in A.
    destruct (debounce w) as [[d v]|] eqn:E.
    + destruct (N.leb_spec d (now w)) as [Hle|Hgt]; [lia|].
      rewrite app_nil_r. auto.
    + rewrite app_nil_r. auto.
  - change (run (e :: es) w) with (run es (step e w)).
    pose proof (step_ahead e w A) as A'.
    destruct e as [x| |dt| |]; cbn [elapsed foldr]; fold (elapsed es).
    + destruct (IH (step (ViewportChange x) w) C A') as (C1 & N1 & O1 & D1).
      rewrite C1, N1, O1, D1. cbn [step set_innerWidth now delivered debounce].
      auto.
    + assert (Hs : step WindowResize w = w).
      { cbn [step]. unfold onWindowResize, subject_next. now rewrite C. }
      rewrite Hs in *. apply (IH w C A).
    + assert (C' : closed (resizeSubject (this (step (Elapse dt) w))) = true).
      { cbn [step]. unfold elapse. destruct (debounce w) as [[d v]|]; [|exact C].
        destruct (d <=? now w + dt)%N; exact C. }
      destruct (IH (step (Elapse dt) w) C' A') as (C1 & N1 & O1 & D1).
      rewrite C1, N1, O1, D1. clear IH C1 N1 O1 D1.
      cbn [step] in *. unfold elapse in *. unfold ahead in A.
      destruct (debounce w) as [[d v]|] eqn:E.
      * destruct (N.leb_spec d (now w + dt)) as [Hle|Hgt].
        -- cbn [now delivered debounce on_debounced set_this].
           destruct (N.leb_spec d (now w + (dt + elapsed es))) as [_|H]; [|lia].
           rewrite app_nil_r. repeat split. lia.
        -- cbn [now delivered debounce]. rewrite E.
           rewrite (N.add_assoc (now w) dt (elapsed es)). auto.
      * cbn [now delivered debounce]. rewrite E. repeat split. lia.
    + destruct (IH (step SidenavClosed w) C A') as (C1 & N1 & O1 & D1).
      rewrite C1, N1, O1, D1. auto.
    + destruct (IH (step Destroy w) eq_refl A') as (C1 & N1 & O1 & D1).
      rewrite C1, N1, O1, D1. auto.
Qed.

(** Until [ngOnInit] has subscribed, nothing observes the subject. *)
Lemma run_unobserved (es : list Event) (w : World) :
  observed (resizeSubject (this w)) = false ->
  debounce w = None ->
  observed (resizeSubject (this (run es w))) = false
  /\ debounce (run es w) = None
  /\ delivered (run es w) = delivered w
  /\ isSmallScreen (this (run es w)) = isSmallScreen (this w)
  /\ innerWidth (run es w)
     = foldl (fun x e => match e with ViewportChange x' => x' | _ => x end)
             (innerWidth w) es.
Proof.
  revert w. induction es as [|e es IH]; intros w O D; [auto|].
  change (run (e :: es) w) with (run es (step e w)). cbn [foldl].
  assert (H : observed (resizeSubject (this (step e w))) = false
              /\ debounce (step e w) = None
              /\ delivered (step e w) = delivered w
              /\ isSmallScreen (this (step e w)) = isSmallScreen (this w)
              /\ innerWidth (step e w)
                 = match e with ViewportChange x' => x' | _ => innerWidth w end).
  { destruct e as [x| |dt| |]; cbn [step]; auto.
    - unfold onWindowResize, subject_next. rewrite O.
      destruct (closed _); auto.
    - unfold elapse. rewrite D. auto. }
  destruct H as (O1 & D1 & L1 & S1 & W1).
  destruct (IH (step e w) O1 D1) as (O2 & D2 & L2 & S2 & W2).
  rewrite O2, D2, L2, S2, W2, L1, S1, W1. auto.
Qed.

End AppEdges.

(** X2: after [ngOnDestroy], at any point of the component's life, the
    subject stays closed and every later resize event throws
    [ObjectUnsubscribedError] without changing anything, so no new window
    is ever opened; the subscriber is called once more if a deadline was
    pending and the clock reaches it, and never otherwise. *)
Theorem after_ngOnDestroy_only_the_pending_call :
  forall (t0 : N) (width : Z) (es0 es : list App.Event),
    App.closed
      (App.resizeSubject
         (App.this
            (App.run es (App.ngOnDestroy (App.run es0 (App.start t0 width))))))
    = true
    /\ App.onWindowResize
         (App.run es (App.ngOnDestroy (App.run es0 (App.start t0 width))))
       = (App.run es (App.ngOnDestroy (App.run es0 (App.start t0 width))),
          Some App.ObjectUnsubscribedError)
    /\ App.delivered
         (App.run es (App.ngOnDestroy (App.run es0 (App.start t0 width))))
       = App.delivered (App.run es0 (App.start t0 width)) ++
         match App.debounce (App.run es0 (App.start t0 width)) with
         | Some (d, v) =>
             if (d <=? App.now (App.run es0 (App.start t0 width))
                       + App.elapsed es)%N
             then [(d, v)] else []
         | None => []
         end.
Proof.
  intros t0 width es0 es.
  pose proof (run_ahead es0 _ (start_ahead t0 width)) as A.
  destruct (run_closed es (App.ngOnDestroy (App.run es0 (App.start t0 width)))
              eq_refl A) as (C & _ & O & _).
  split; [exact C|]. split; [|exact O].
  unfold App.onWindowResize, App.subject_next. rewrite C. reflexivity.
Qed.

(** X3: before [ngOnInit] nothing is subscribed: whatever the viewport
    does and whatever time passes, resize events are dropped, the
    subscriber is never called, both flags keep their initial [false], and
    [ngOnInit], when it comes, sets them from the width of that moment
    alone. *)
Theorem events_before_ngOnInit_are_dropped :
  forall (t0 : N) (width : Z) (es : list App.Event),
    App.delivered (App.run es (App.boot t0 width)) = []
    /\ App.debounce (App.run es (App.boot t0 width)) = None
    /\ App.isSmallScreen (App.this (App.run es (App.boot t0 width))) = false
    /\ App.sideNavOpened (App.this (App.run es (App.boot t0 width))) = false
    /\ App.isSmallScreen
         (App.this (App.ngOnInit (App.run es (App.boot t0 width))).1)
       = (App.innerWidth (App.run es (App.boot t0 width)) <? 800)%Z
    /\ App.sideNavOpened
         (App.this (App.ngOnInit (App.run es (App.boot t0 width))).1)
       = negb (App.innerWidth (App.run es (App.boot t0 width)) <? 800)%Z.
Proof.
  intros t0 width es.
  destruct (run_unobserved es (App.boot t0 width) eq_refl eq_refl)
    as (_ & D & L & S & _).
  split; [exact L|]. split; [exact D|]. split; [exact S|].
  split.
  { rewrite run_sideNavOpened. destruct (existsb _ _); reflexivity. }
  unfold App.ngOnInit.
  destruct (App.closed _); split; reflexivity.
Qed.

Section AppSettling.
Import App.

(** A resize input met by no deadline falling due. *)
Lemma resize_input_moves_deadline (gap : N) (width : Z) (w : World) :
  listening w = true ->
  match debounce w with
  | Some (d, _) => (now w + gap < d)%N
  | None => True
  end ->
  run (resize_input (gap, width)) w
  = {| now := (now w + gap)%N; innerWidth := width; this := this w;
       debounce := Some ((now w + gap + dueTime)%N, width);
       delivered := delivered w |}.
Proof.
  intros L A. destruct (listening_inv w L) as (Hc & Ho).
  unfold resize_input, run. cbn [foldl step fst snd].
  assert (E : elapse gap w
              = {| now := (now w + gap)%N; innerWidth := innerWidth w;
                   this := this w; debounce := debounce w;
                   delivered := delivered w |}).
  { unfold elapse. destruct (debounce w) as [[d v]|] eqn:E0.
    - destruct (N.leb_spec d (now w + gap)) as [H|_]; [lia|].
      cbn [now innerWidth this debounce delivered]. now rewrite E0.
    - cbn [now innerWidth this debounce delivered]. now rewrite E0. }
  rewrite E. unfold onWindowResize, subject_next, set_innerWidth.
  cbn [this now innerWidth debounce delivered]. rewrite Hc, Ho. reflexivity.
Qed.

(** Whatever was pending, the last input of a sequence leaves its own
    width in the viewport and its own deadline. *)
Lemma run_inputs_last (i : N * Z) (rest : list (N * Z)) (w : World) :
  listening w = true ->
  listening (run (concat (map resize_input (i :: rest))) w) = true
  /\ innerWidth (run (concat (map resize_input (i :: rest))) w)
     = last_width (i :: rest)
  /\ debounce (run (concat (map resize_input (i :: rest))) w)
     = Some ((now (run (concat (map resize_input (i :: rest))) w) + dueTime)%N,
             last_width (i :: rest)).
Proof.
  revert i w. induction rest as [|j rest IH]; intros [gap width] w L.
  - cbn [map concat]. rewrite app_nil_r.
    destruct (run_resize_input gap width w L) as (L1 & N1 & D1 & _).
    split; [exact L1|]. split.
    + unfold resize_input, run. cbn [foldl step fst snd].
      unfold onWindowResize, subject_next.
      destruct (closed _); [reflexivity|]. destruct (observed _); reflexivity.
    + rewrite D1, N1. reflexivity.
  - cbn [map concat]. rewrite run_app.
    destruct (run_resize_input gap width w L) as (L1 & _).
    destruct (IH j _ L1) as (L2 & W2 & D2).
    change (concat (map resize_input (j :: rest)))
      with (resize_input j ++ concat (map resize_input rest)) in *.
    split; [exact L2|]. split; [exact W2 | exact D2].
Qed.

(** A dense burst met by no deadline leaves the component untouched. *)
Lemma run_dense_frame (rest : list (N * Z)) (w : World) :
  listening w = true ->
  match debounce w with
  | Some (d, _) => d = (now w + dueTime)%N
  | None => True
  end ->
  forallb (fun i => (i.1 <? dueTime)%N) rest = true ->
  this (run (concat (map resize_input rest)) w) = this w
  /\ innerWidth (run (concat (map resize_input rest)) w)
     = List.last (map snd rest) (innerWidth w).
Proof.
  revert w. induction rest as [|[gap width] rest IH]; intros w L A F; [auto|].
  cbn [forallb fst] in F. apply andb_true_iff in F as [Hg F].
  apply N.ltb_lt in Hg.
  cbn [map concat]. rewrite run_app.
  assert (A' : match debounce w with
               | Some (d, _) => (now w + gap < d)%N
               | None => True
               end).
  { destruct (debounce w) as [[d v]|]; [subst d; lia | exact I]. }
  rewrite (resize_input_moves_deadline gap width w L A').
  match goal with |- context [run _ ?x] => set (w1 := x) end.
  assert (L1 : listening w1 = true) by exact L.
  destruct (IH w1 L1 eq_refl F) as (T1 & W1).
  rewrite T1, W1. cbn [map snd]. rewrite last_cons_default. auto.
Qed.

End AppSettling.

(** X4: once resize events stop for 200 time units or more, the flag
    agrees with the viewport: after any sequence of resize inputs, each
    dispatched with the width the viewport then has, and a quiet period of
    200 or more, [isSmallScreen] is [(width < 800)] for the last width,
    which is the width of the viewport, and no deadline is left. *)
Theorem settled_flag_matches_viewport :
  forall (w : App.World) (i : N * Z) (rest : list (N * Z)) (quiet : N),
    App.listening w = true ->
    (200 <= quiet)%N ->
    App.isSmallScreen (App.this (App.run (App.burst (i :: rest) quiet) w))
    = (App.last_width (i :: rest) <? 800)%Z
    /\ App.innerWidth (App.run (App.burst (i :: rest) quiet) w)
       = App.last_width (i :: rest)
    /\ App.debounce (App.run (App.burst (i :: rest) quiet) w) = None.
Proof.
  intros w i rest quiet L Q. unfold App.burst. rewrite run_app.
  destruct (run_inputs_last i rest w L) as (_ & W & D).
  change (App.run [App.Elapse quiet] ?x) with (App.elapse quiet x).
  rewrite (elapse_fires _ _ _ quiet D); [|unfold App.dueTime; lia].
  cbn [App.this App.innerWidth App.debounce App.set_isSmallScreen
       App.isSmallScreen].
  rewrite W. auto.
Qed.

(** X4 at three inputs, the second 300 time units after the first. *)
Lemma settled_flag_witness :
  App.isSmallScreen
    (App.this
       (App.run (App.burst [(0%N, 500%Z); (300%N, 900%Z); (10%N, 640%Z)] 200)
          (App.start 0 1200)))
  = true
  /\ App.innerWidth
       (App.run (App.burst [(0%N, 500%Z); (300%N, 900%Z); (10%N, 640%Z)] 200)
          (App.start 0 1200))
     = 640%Z
  /\ App.debounce
       (App.run (App.burst [(0%N, 500%Z); (300%N, 900%Z); (10%N, 640%Z)] 200)
          (App.start 0 1200))
     = None.
Proof.
  apply (settled_flag_matches_viewport
           (App.start 0 1200) (0%N, 500%Z) [(300%N, 900%Z); (10%N, 640%Z)] 200%N);
    [reflexivity | lia].
Defined.

(** X5: while a burst lasts the component is not touched: with no deadline
    pending at the start, inputs less than 200 time units apart and a quiet
    period shorter than 200, the viewport has the last width of the burst
    and both flags are what they were before it. *)
Theorem flags_frozen_during_burst :
  forall (w : App.World) (inputs : list (N * Z)) (quiet : N),
    App.listening w = true ->
    App.debounce w = None ->
    App.dense inputs = true ->
    (quiet < 200)%N ->
    App.this (App.run (App.burst inputs quiet) w) = App.this w
    /\ App.innerWidth (App.run (App.burst inputs quiet) w)
       = App.last_width inputs.
Proof.
  intros w inputs quiet L D F Q.
  destruct inputs as [|[gap width] rest]; [discriminate|]. cbn in F.
  unfold App.burst. rewrite run_app. cbn [map concat]. rewrite run_app.
  rewrite (resize_input_moves_deadline gap width w L);
    [|rewrite D; exact I].
  match goal with |- context [App.run (concat _) ?x] => set (w1 := x) end.
  destruct (run_dense_frame rest w1 L eq_refl F) as (T1 & W1).
  destruct (run_dense_tail rest width w1 L eq_refl F) as (_ & N1 & D1 & _).
  change (App.run [App.Elapse quiet] ?x) with (App.elapse quiet x).
  unfold App.elapse. rewrite D1, N1.
  destruct (N.leb_spec (App.arrival (App.now w1) rest + App.dueTime)
              (App.arrival (App.now w1) rest + quiet)) as [H|_];
    [unfold App.dueTime in H; lia|].
  cbn [App.this App.innerWidth]. rewrite T1, W1.
  unfold App.last_width. cbn [map snd]. rewrite last_cons_default. auto.
Qed.

(** X5 at a component created at width 1200 and shrunk to 500, then 400. *)
Lemma flags_frozen_witness :
  App.this
    (App.run (App.burst [(0%N, 500%Z); (150%N, 400%Z)] 199) (App.start 0 1200))
  = App.this (App.start 0 1200)
  /\ App.innerWidth
       (App.run (App.burst [(0%N, 500%Z); (150%N, 400%Z)] 199) (App.start 0 1200))
     = 400%Z.
Proof.
  apply (flags_frozen_during_burst
           (App.start 0 1200) [(0%N, 500%Z); (150%N, 400%Z)] 199%N);
    [reflexivity | reflexivity | reflexivity | lia].
Defined.

(** ** The resolver's identifier *)

Lemma input_run_gistId (es : list GistInput.Event) (w : GistInput.World) :
  Host.timeouts w.1 = [] ->
  GistInput.gistId (GistInput.run es w).2
  = GistInput.last_input (GistInput.gistId w.2) es.
Proof.
  revert w. induction es as [|e es IH]; intros w Hq; [reflexivity|].
  destruct (input_step_idle e w Hq) as (Hq' & _ & Hg).
  change (GistInput.run (e :: es) w) with (GistInput.run es (GistInput.step e w)).
  rewrite (IH _ Hq'), Hg. destruct e; reflexivity.
Qed.

Lemma route_step_gistId (t1 : N) (e : GistRoute.Event) (w : GistRoute.World) :
  Host.timeouts w.1 = [] \/ GistRoute.waiting t1 w ->
  GistRoute.gistId (GistRoute.step e w).2
  = match e with
    | GistRoute.ParamsEmit p => GistRoute.index p "gistId"
    | GistRoute.Elapse _ => GistRoute.gistId w.2
    end.
Proof.
  destruct w as [h c]. destruct e as [p|dt]; [reflexivity|].
  cbn [GistRoute.step fst snd]. unfold Host.elapse.
  intros [Hq|(Hq & _)]; cbn [fst] in Hq; rewrite Hq; cbn [Host.fire];
    [reflexivity|].
  destruct (_ <=? _)%N; reflexivity.
Qed.

Lemma route_run_gistId (t1 : N) (es : list GistRoute.Event) (w : GistRoute.World)
      (p : gmap string string) :
  GistRoute.waiting t1 w \/ GistRoute.expired t1 w ->
  GistRoute.gistId w.2 = GistRoute.index p "gistId" ->
  GistRoute.gistId (GistRoute.run es w).2
  = GistRoute.index (GistRoute.last_params p es) "gistId".
Proof.
  revert w p. induction es as [|e es IH]; intros w p H G; [exact G|].
  change (GistRoute.run (e :: es) w)
    with (GistRoute.run es (GistRoute.step e w)).
  destruct (route_step_phase t1 e w H) as (H' & _).
  assert (Hg : GistRoute.gistId (GistRoute.step e w).2
               = match e with
                 | GistRoute.ParamsEmit q => GistRoute.index q "gistId"
                 | GistRoute.Elapse _ => GistRoute.gistId w.2
                 end).
  { apply (route_step_gistId t1).
    destruct H as [Hw|(Hq & _)]; [right; exact Hw | left; exact Hq]. }
  destruct e as [q|dt].
  - change (GistRoute.last_params p (GistRoute.ParamsEmit q :: es))
      with (GistRoute.last_params q es).
    apply (IH _ q H'). exact Hg.
  - change (GistRoute.last_params p (GistRoute.Elapse dt :: es))
      with (GistRoute.last_params p es).
    apply (IH _ p H'). rewrite Hg. exact G.
Qed.

Lemma route_run_idle_gistId (es : list GistRoute.Event) (w : GistRoute.World)
      (p : gmap string string) :
  Host.timeouts w.1 = [] ->
  GistRoute.gistId w.2 = GistRoute.index p "gistId" ->
  GistRoute.gistId (GistRoute.run es w).2
  = GistRoute.index (GistRoute.last_params p es) "gistId".
Proof.
  revert w p. induction es as [|e es IH]; intros w p Hq G; [exact G|].
  change (GistRoute.run (e :: es) w)
    with (GistRoute.run es (GistRoute.step e w)).
  destruct (route_step_idle e w Hq) as (Hq' & _).
  pose proof (route_step_gistId 0 e w (or_introl Hq)) as Hg.
  destruct e as [q|dt].
  - change (GistRoute.last_params p (GistRoute.ParamsEmit q :: es))
      with (GistRoute.last_params q es).
    apply (IH _ q Hq'). exact Hg.
  - change (GistRoute.last_params p (GistRoute.Elapse dt :: es))
      with (GistRoute.last_params p es).
    apply (IH _ p Hq'). rewrite Hg. exact G.
Qed.

(** X6: in the input-driven version, two components whose locators are
    equal after [ngOnInit] hold the same identifier: no two identifiers
    share an asset path. *)
Theorem distinct_identifiers_distinct_locators :
  forall (a b : GistInput.GistComponent),
    GistInput.safeUrl (GistInput.ngOnInit a)
    = GistInput.safeUrl (GistInput.ngOnInit b) ->
    GistInput.gistId a = GistInput.gistId b.
Proof.
  intros a b H. apply gist_asset_inj. exact (f_equal underlying H).
Qed.

(** X6 at two components that differ only by the locator held before. *)
Lemma distinct_identifiers_witness :
  GistInput.gistId
    {| GistInput.safeUrl := PlainString ""; GistInput.gistId := "abc123" |}
  = GistInput.gistId
      {| GistInput.safeUrl := TrustedResourceUrl "assets/html/gist_old.html";
         GistInput.gistId := "abc123" |}.
Proof.
  apply (distinct_identifiers_distinct_locators
           {| GistInput.safeUrl := PlainString ""; GistInput.gistId := "abc123" |}
           {| GistInput.safeUrl := TrustedResourceUrl "assets/html/gist_old.html";
              GistInput.gistId := "abc123" |}).
  reflexivity.
Defined.

(** X7: in the input-driven version the locator is built from the last
    value the input received before [ngOnInit], the empty string if it
    received none; values received later reach the field and not the
    locator. *)
Theorem input_locator_from_last_input_before_init :
  forall (t0 : N) (es0 es : list GistInput.Event),
    GistInput.safeUrl
      (GistInput.run es (GistInput.init (GistInput.run es0 (GistInput.boot t0)))).2
    = TrustedResourceUrl (gist_asset (GistInput.last_input "" es0))
    /\ GistInput.gistId
         (GistInput.run es (GistInput.init (GistInput.run es0 (GistInput.boot t0)))).2
       = GistInput.last_input (GistInput.last_input "" es0) es.
Proof.
  intros t0 es0 es.
  destruct (input_boot_idle t0 es0) as (Hq & _).
  destruct (input_resolved_once t0 es0 es) as (Hu & _).
  pose proof (input_run_gistId es0 (GistInput.boot t0) eq_refl) as G0.
  cbn [GistInput.boot GistInput.constructor GistInput.gistId snd] in G0.
  split.
  - rewrite Hu, G0. reflexivity.
  - rewrite (input_run_gistId es (GistInput.init _) Hq).
    cbn [GistInput.init GistInput.ngOnInit GistInput.gistId snd].
    rewrite G0. reflexivity.
Qed.

(** X8: in the route-subscribed version the locator is built from the
    parameters last emitted before [ngOnInit], those of the route at
    construction if none came after; the field follows every later
    emission, the locator none. *)
Theorem route_locator_from_last_params_before_init :
  forall (t0 : N) (params : gmap string string) (es0 es : list GistRoute.Event),
    GistRoute.safeUrl
      (GistRoute.run es
         (GistRoute.ngOnInit (GistRoute.run es0 (GistRoute.boot t0 params)))).2
    = TrustedResourceUrl
        (gist_asset
           (GistRoute.to_string
              (GistRoute.index (GistRoute.last_params params es0) "gistId")))
    /\ GistRoute.gistId
         (GistRoute.run es
            (GistRoute.ngOnInit (GistRoute.run es0 (GistRoute.boot t0 params)))).2
       = GistRoute.index
           (GistRoute.last_params (GistRoute.last_params params es0) es) "gistId".
Proof.
  intros t0 params es0 es.
  destruct (route_run_idle es0 (GistRoute.boot t0 params) eq_refl)
    as (Hq & _ & Hl).
  pose proof (route_run_idle_gistId es0 (GistRoute.boot t0 params) params
                eq_refl eq_refl) as G0.
  pose proof (route_init_waiting _ Hq Hl) as Hw.
  destruct (route_run_phase _ es _ (or_introl Hw)) as (_ & Hu & _).
  split.
  - rewrite Hu. cbn [GistRoute.ngOnInit GistRoute.safeUrl snd].
    rewrite G0. reflexivity.
  - apply (route_run_gistId _ es _ _ (or_introl Hw)).
    cbn [GistRoute.ngOnInit GistRoute.gistId snd]. exact G0.
Qed.

(** X9: when the route's parameters hold no [gistId], the identifier is
    [undefined] and the locator names the asset
    [assets/html/gist_undefined.html], the same asset the identifier
    ["undefined"] names. *)
Theorem missing_gistId_resolves_undefined :
  forall (t0 : N) (params : gmap string string) (es : list GistRoute.Event),
    params !! "gistId" = None ->
    GistRoute.safeUrl
      (GistRoute.run es (GistRoute.ngOnInit (GistRoute.boot t0 params))).2
    = TrustedResourceUrl "assets/html/gist_undefined.html"
    /\ GistRoute.safeUrl
         (GistRoute.run es (GistRoute.ngOnInit (GistRoute.boot t0 params))).2
       = GistRoute.safeUrl
           (GistRoute.ngOnInit
              (GistRoute.boot t0 (<["gistId" := "undefined"]> ∅))).2.
Proof.
  intros t0 params es H.
  pose proof (route_init_waiting (GistRoute.boot t0 params) eq_refl eq_refl) as Hw.
  destruct (route_run_phase _ es _ (or_introl Hw)) as (_ & Hu & _).
  rewrite Hu.
  cbn [GistRoute.ngOnInit GistRoute.boot GistRoute.constructor GistRoute.on_params
       GistRoute.safeUrl GistRoute.gistId snd].
  unfold GistRoute.index. rewrite H, lookup_insert_eq. split; reflexivity.
Qed.

(** X9 at parameters that hold another key only. *)
Lemma missing_gistId_witness :
  GistRoute.safeUrl
    (GistRoute.run [GistRoute.Elapse 1500]
       (GistRoute.ngOnInit (GistRoute.boot 0 (<["id" := "abc123"]> ∅)))).2
  = TrustedResourceUrl "assets/html/gist_undefined.html"
  /\ GistRoute.safeUrl
       (GistRoute.run [GistRoute.Elapse 1500]
          (GistRoute.ngOnInit (GistRoute.boot 0 (<["id" := "abc123"]> ∅)))).2
     = GistRoute.safeUrl
         (GistRoute.ngOnInit (GistRoute.boot 0 (<["gistId" := "undefined"]> ∅))).2.
Proof.
  apply (missing_gistId_resolves_undefined
           0%N (<["id" := "abc123"]> ∅) [GistRoute.Elapse 1500]).
  vm_compute. reflexivity.
Defined.

(** ** From the URL to the locator *)

Lemma routed_locator_url_tree (t0 : N) (raw : list string) :
  Routing.routed_locator t0
    (Routing.recognize Routing.MAX_ALLOWED_REDIRECTS Routing.routes
       (Routing.url_tree raw))
  = match raw with
    | [s] =>
        match Uri.decodeURIComponent s with
        | Some id => Some (TrustedResourceUrl (gist_asset id))
        | None => None
        end
    | _ => None
    end.
Proof.
  rewrite recognize_url_tree. destruct raw as [|s [|s2 rest]]; try reflexivity.
  destruct (Uri.decodeURIComponent s) as [id|]; [|reflexivity].
  cbn [Routing.routed_locator GistRoute.ngOnInit GistRoute.boot
       GistRoute.constructor GistRoute.on_params GistRoute.safeUrl
       GistRoute.gistId snd].
  unfold GistRoute.index. rewrite lookup_insert_eq. reflexivity.
Qed.

(** X10: routing and resolution together, for the URLs made of plain path
    segments: such a URL reaches a locator exactly when it has one segment
    and the segment decodes, and the locator is then the asset of the
    decoded identifier; when the one segment holds no percent sign the
    locator is the asset named after the segment itself. *)
Theorem url_resolves_to_asset_of_its_segment :
  forall (t0 : N) (url : string) (raw : list string),
    Routing.parse url = Some raw ->
    exists r : Routing.Recognized,
      Routing.navigate url = Some r
      /\ Routing.routed_locator t0 r
         = match raw with
           | [s] =>
               match Uri.decodeURIComponent s with
               | Some id => Some (TrustedResourceUrl (gist_asset id))
               | None => None
               end
           | _ => None
           end
      /\ match raw with
         | [s] =>
             Uri.contains "%" s = true
             \/ Routing.routed_locator t0 r
                = Some (TrustedResourceUrl (gist_asset s))
         | _ => Routing.routed_locator t0 r = None
         end.
Proof.
  intros t0 url raw P.
  exists (Routing.recognize Routing.MAX_ALLOWED_REDIRECTS Routing.routes
            (Routing.url_tree raw)).
  split; [unfold Routing.navigate; rewrite P; reflexivity|].
  split; [apply routed_locator_url_tree|].
  rewrite routed_locator_url_tree.
  destruct raw as [|s [|s2 rest]]; try reflexivity.
  destruct (Uri.contains "%" s) eqn:E; [left; reflexivity|].
  right. rewrite (decodeURIComponent_plain _ E). reflexivity.
Qed.

(** X10 at the URL [/abc123]. *)
Lemma url_resolves_witness :
  exists r : Routing.Recognized,
    Routing.navigate "/abc123" = Some r
    /\ Routing.routed_locator 0 r
       = Some (TrustedResourceUrl (gist_asset "abc123"))
    /\ (Uri.contains "%" "abc123" = true
        \/ Routing.routed_locator 0 r
           = Some (TrustedResourceUrl (gist_asset "abc123"))).
Proof.
  exact (url_resolves_to_asset_of_its_segment 0%N "/abc123" ["abc123"] eq_refl).
Defined.

(** X11: two URLs of one plain segment each that are routed to the same
    locator decode to the same identifier, and the locator is the asset of
    that identifier: the asset shown depends on the decoded identifier
    alone, so such URLs that differ only in how they escape a character
    show the same asset. *)
Theorem same_locator_same_decoded_identifier :
  forall (t0 : N) (a b ra rb : string) (r1 r2 : Routing.Recognized)
         (u : SafeResourceUrl),
    Routing.parse a = Some [ra] ->
    Routing.parse b = Some [rb] ->
    Routing.navigate a = Some r1 ->
    Routing.navigate b = Some r2 ->
    Routing.routed_locator t0 r1 = Some u ->
    Routing.routed_locator t0 r2 = Some u ->
    Uri.decodeURIComponent ra = Uri.decodeURIComponent rb
    /\ exists id : string,
        Uri.decodeURIComponent ra = Some id
        /\ u = TrustedResourceUrl (gist_asset id).
Proof.
  intros t0 a b ra rb r1 r2 u Pa Pb Na Nb Ha Hb.
  unfold Routing.navigate in Na, Nb. rewrite Pa in Na. rewrite Pb in Nb.
  assert (E1 : r1 = Routing.recognize Routing.MAX_ALLOWED_REDIRECTS
                      Routing.routes (Routing.url_tree [ra])) by congruence.
  assert (E2 : r2 = Routing.recognize Routing.MAX_ALLOWED_REDIRECTS
                      Routing.routes (Routing.url_tree [rb])) by congruence.
  rewrite E1, routed_locator_url_tree in Ha.
  rewrite E2, routed_locator_url_tree in Hb.
  clear Na Nb E1 E2.
  destruct (Uri.decodeURIComponent ra) as [x|]; [|discriminate].
  destruct (Uri.decodeURIComponent rb) as [y|]; [|discriminate].
  assert (E : Some (TrustedResourceUrl (gist_asset x))
              = Some (TrustedResourceUrl (gist_asset y))) by congruence.
  assert (Exy : x = y).
  { apply gist_asset_inj.
    exact (f_equal (fun o => match o with
                             | Some v => underlying v
                             | None => ""
                             end) E). }
  subst y. split; [reflexivity|]. exists x. split; [reflexivity|].
  congruence.
Qed.

(** X11 at [/a%2Fb] and [/a%2fb]. *)
Lemma same_locator_witness :
  Uri.decodeURIComponent "a%2Fb" = Uri.decodeURIComponent "a%2fb"
  /\ exists id : string,
      Uri.decodeURIComponent "a%2Fb" = Some id
      /\ TrustedResourceUrl "assets/html/gist_a/b.html"
         = TrustedResourceUrl (gist_asset id).
Proof.
  apply (same_locator_same_decoded_identifier 0%N "/a%2Fb" "/a%2fb"
           "a%2Fb" "a%2fb"
           (Routing.Activated Routing.GistComponent (<["gistId" := "a/b"]> ∅))
           (Routing.Activated Routing.GistComponent (<["gistId" := "a/b"]> ∅))
           (TrustedResourceUrl "assets/html/gist_a/b.html"));
    vm_compute; reflexivity.
Defined.

(** ** [decodeURL] *)

Section EncodingFacts.
Import Encoding.

Lemma escape_of_encoded (c : ascii) (r : string) :
  Uri.escape
    (String "%"
       (String (hex (N_of_ascii c / 16)) (String (hex (N_of_ascii c mod 16)) r)))
  = Some (N_of_ascii c, r).
Proof.
  destruct c as [[] [] [] [] [] [] [] []]; vm_compute; reflexivity.
Qed.

Lemma unreserved_not_percent (c : ascii) :
  unreserved c = true -> Ascii.eqb c "%" = false.
Proof.
  destruct c as [[] [] [] [] [] [] [] []]; intros H;
    first [reflexivity | discriminate H].
Qed.

Lemma decode_encoded (s : string) (fuel : nat) :
  all_chars is_ascii s = true ->
  (String.length (encodeURIComponent s) <= fuel)%nat ->
  Uri.decode fuel (encodeURIComponent s) = Some s.
Proof.
  revert fuel. induction s as [|c s IH]; intros fuel A F.
  - destruct fuel; reflexivity.
  - cbn [all_chars] in A. apply andb_true_iff in A as [Ac A].
    cbn [encodeURIComponent] in *. destruct (unreserved c) eqn:U.
    + destruct fuel as [|fuel]; [cbn in F; lia|].
      cbn [Uri.decode]. rewrite (unreserved_not_percent c U).
      rewrite (IH fuel A); [reflexivity | cbn in F; lia].
    + destruct fuel as [|fuel]; [cbn in F; lia|].
      cbn [Uri.decode]. change (Ascii.eqb "%" "%") with true. cbv iota.
      rewrite escape_of_encoded.
      unfold is_ascii in Ac. unfold Uri.trailing. rewrite Ac.
      cbn [Uri.continuation Uri.well_formed]. rewrite Ac.
      rewrite (IH fuel A); [|cbn in F; lia].
      cbn. rewrite ascii_N_embedding. reflexivity.
Qed.

Lemma digit_is_base64_char (i : N) : base64_char (digit i) = true.
Proof.
  unfold digit. generalize (N.to_nat i) as k. intros k.
  do 64 (destruct k as [|k]; [reflexivity|]).
  cbn. destruct k; reflexivity.
Qed.

Lemma base64_char_is_ascii (c : ascii) :
  base64_char c = true -> is_ascii c = true.
Proof.
  destruct c as [[] [] [] [] [] [] [] []]; intros H;
    first [reflexivity | discriminate H].
Qed.

Lemma base64_shape (n : nat) (bs : list N) :
  (length bs <= n)%nat ->
  all_chars base64_char (base64 bs) = true
  /\ String.length (base64 bs) = (4 * ((length bs + 2) / 3))%nat.
Proof.
  revert bs. induction n as [n IH] using lt_wf_ind.
  intros bs Hn. destruct bs as [|a [|b [|c rest]]].
  - split; reflexivity.
  - cbn [base64 all_chars]. rewrite !digit_is_base64_char. split; reflexivity.
  - cbn [base64 all_chars]. rewrite !digit_is_base64_char. split; reflexivity.
  - cbn [base64 all_chars String.length]. rewrite !digit_is_base64_char.
    cbn [length] in Hn.
    destruct (IH (length rest) ltac:(lia) rest (le_n _)) as (A & L).
    rewrite A, L. split; [reflexivity|]. cbn [length].
    replace (S (S (S (length rest))) + 2)%nat with (length rest + 2 + 1 * 3)%nat
      by lia.
    rewrite Nat.div_add by lia. lia.
Qed.

Lemma all_chars_weaken (p q : ascii -> bool) (s : string) :
  (forall c, p c = true -> q c = true) ->
  all_chars p s = true -> all_chars q s = true.
Proof.
  intros H. induction s as [|c s IH]; [reflexivity|]. cbn [all_chars].
  intros A. apply andb_true_iff in A as [Ac A].
  rewrite (H c Ac), (IH A). reflexivity.
Qed.

Lemma hex_unreserved (i : N) : unreserved (hex i) = true.
Proof.
  unfold hex. generalize (N.to_nat i) as k. intros k.
  do 16 (destruct k as [|k]; [reflexivity|]).
  cbn. destruct k; reflexivity.
Qed.

Lemma encoded_url_safe (s : string) :
  all_chars url_safe (encodeURIComponent s) = true.
Proof.
  induction s as [|c s IH]; [reflexivity|].
  cbn [encodeURIComponent]. destruct (unreserved c) eqn:U.
  - cbn [all_chars]. unfold url_safe at 1. rewrite U, IH. reflexivity.
  - cbn [all_chars]. unfold url_safe at 1 2 3.
    rewrite !hex_unreserved, IH. reflexivity.
Qed.

Lemma btoa_shape (key b64 : string) :
  btoa key = Some b64 ->
  all_chars base64_char b64 = true
  /\ exists n : nat, String.length b64 = (4 * n)%nat.
Proof.
  unfold btoa. destruct (latin1 key) as [bs|]; [|discriminate].
  intros H. injection H as <-.
  destruct (base64_shape (length bs) bs (le_n _)) as (A & L).
  split; [exact A|]. eexists. exact L.
Qed.

End EncodingFacts.

(** X12: on a string of ASCII characters, [decodeURIComponent] undoes
    [encodeURIComponent], and the encoded string is made of unreserved
    characters and percent signs only. *)
Theorem encodeURIComponent_round_trip :
  forall s : string,
    Encoding.all_chars Encoding.is_ascii s = true ->
    Uri.decodeURIComponent (Encoding.encodeURIComponent s) = Some s
    /\ Encoding.all_chars Encoding.url_safe (Encoding.encodeURIComponent s)
       = true.
Proof.
  intros s A. split; [|apply encoded_url_safe].
  apply decode_encoded; [exact A | apply le_n].
Qed.

(** X12 at a string with a space, a plus, a slash and an equal sign. *)
Lemma encodeURIComponent_round_trip_witness :
  Uri.decodeURIComponent (Encoding.encodeURIComponent "a b+c/d=e~'(f)*!")
  = Some "a b+c/d=e~'(f)*!"
  /\ Encoding.all_chars Encoding.url_safe
       (Encoding.encodeURIComponent "a b+c/d=e~'(f)*!")
     = true.
Proof.
  apply (encodeURIComponent_round_trip "a b+c/d=e~'(f)*!").
  reflexivity.
Defined.

(** X13: what [decodeURL] computes, for any key in place of its constant:
    when [btoa] accepts the key, its result is made of base64 digits and
    padding, in groups of four; the percent-encoding of that result is made
    of unreserved characters and percent signs only, and decodes back to
    it. [decodeURL] itself writes to the console the string it returns, and
    that string decodes back to [btoa] of its constant. *)
Theorem decodeURL_result_decodes_to_base64 :
  forall key b64 : string,
    Encoding.btoa key = Some b64 ->
    Encoding.all_chars Encoding.base64_char b64 = true
    /\ (exists n : nat, String.length b64 = (4 * n)%nat)
    /\ Encoding.all_chars Encoding.url_safe (Encoding.encodeURIComponent b64)
       = true
    /\ Uri.decodeURIComponent (Encoding.encodeURIComponent b64) = Some b64
    /\ match Encoding.decodeURL with
       | Some (logged, returned) =>
           logged = [returned]
           /\ Uri.decodeURIComponent returned
              = Encoding.btoa "7f62e3b9729525ac4002588e17fd0cac"
       | None => False
       end.
Proof.
  intros key b64 H. destruct (btoa_shape key b64 H) as (A & L).
  split; [exact A|]. split; [exact L|].
  split; [apply encoded_url_safe|]. split.
  - apply decode_encoded; [|apply le_n].
    apply (all_chars_weaken _ _ _ base64_char_is_ascii A).
  - vm_compute. split; reflexivity.
Qed.

(** X13 at the key of [decodeURL]. *)
Lemma decodeURL_witness :
  Encoding.all_chars Encoding.base64_char
    "N2Y2MmUzYjk3Mjk1MjVhYzQwMDI1ODhlMTdmZDBjYWM=" = true
  /\ (exists n : nat,
        String.length "N2Y2MmUzYjk3Mjk1MjVhYzQwMDI1ODhlMTdmZDBjYWM="
        = (4 * n)%nat)
  /\ Encoding.all_chars Encoding.url_safe
       (Encoding.encodeURIComponent "N2Y2MmUzYjk3Mjk1MjVhYzQwMDI1ODhlMTdmZDBjYWM=")
     = true
  /\ Uri.decodeURIComponent
       (Encoding.encodeURIComponent "N2Y2MmUzYjk3Mjk1MjVhYzQwMDI1ODhlMTdmZDBjYWM=")
     = Some "N2Y2MmUzYjk3Mjk1MjVhYzQwMDI1ODhlMTdmZDBjYWM="
  /\ match Encoding.decodeURL with
     | Some (logged, returned) =>
         logged = [returned]
         /\ Uri.decodeURIComponent returned
            = Encoding.btoa "7f62e3b9729525ac4002588e17fd0cac"
     | None => False
     end.
Proof.
  apply (decodeURL_result_decodes_to_base64
           "7f62e3b9729525ac4002588e17fd0cac"
           "N2Y2MmUzYjk3Mjk1MjVhYzQwMDI1ODhlMTdmZDBjYWM=").
  vm_compute. reflexivity.
Defined.

(** [btoa] refuses a character above U+00FF and takes one below. *)
Example btoa_edges :
  Encoding.btoa "€" = None
  /\ Encoding.btoa "é" = Some "6Q=="
  /\ Encoding.btoa "" = Some "".
Proof. repeat split; vm_compute; reflexivity. Qed.

Example decodeURL_value :
  Encoding.decodeURL
  = Some (["N2Y2MmUzYjk3Mjk1MjVhYzQwMDI1ODhlMTdmZDBjYWM%3D"],
          "N2Y2MmUzYjk3Mjk1MjVhYzQwMDI1ODhlMTdmZDBjYWM%3D").
Proof. vm_compute. reflexivity. Qed.
